(** * channel.py: the Stream snapshot and the Channel state machine

    A shallow embedding of [src/channel.py].  Python values that come off
    the wire are modelled by [pyval]; fallible code returns [result];
    coroutines ([async def]) are resumptions over the [Channel] object,
    suspended at their [await] points; the asyncio loop is a task table. *)

From Stdlib Require Import ZArith Ascii String List Lia Bool.
From stdpp Require Import base list.
Import ListNotations.

Local Open Scope string_scope.
Local Open Scope list_scope.

(** ** Exceptions and results *)

Inductive exn : Type :=
  | KeyError (key : string)
  | TypeError
  | ValueError
  | AssertionError
  | MinerException (msg : string)
  | IndexError
  | CancelledError
  | TransportError (what : string).

Inductive result (A : Type) : Type :=
  | Ok (a : A)
  | Raise (e : exn).
Arguments Ok {A} a.
Arguments Raise {A} e.

Definition rbind {A B} (r : result A) (f : A -> result B) : result B :=
  match r with
  | Ok a => f a
  | Raise e => Raise e
  end.

Notation "'let*' x ':=' r 'in' k" := (rbind r (fun x => k))
  (at level 100, x name, r at level 99, k at level 200, right associativity).

(** ** Python values as [json.loads] and the GQL layer hand them over.
    Numbers with a fraction or an exponent (Python floats) are outside the
    model.  A [dict] keeps its insertion order; its keys are strings. *)

#[warnings="-register-all"]
Inductive pyval : Type :=
  | PNone
  | PBool (b : bool)
  | PInt (z : Z)
  | PStr (s : string)
  | PList (l : list pyval)
  | PDict (d : list (string * pyval)).

Fixpoint assoc (k : string) (d : list (string * pyval)) : option pyval :=
  match d with
  | [] => None
  | (k', v) :: d' => if String.eqb k k' then Some v else assoc k d'
  end.

(** [v[k]] for a string key [k]: only a dict can be subscripted so. *)
Definition py_getitem (v : pyval) (k : string) : result pyval :=
  match v with
  | PDict d =>
      match assoc k d with
      | Some x => Ok x
      | None => Raise (KeyError k)
      end
  | _ => Raise TypeError
  end.

(** Truth value testing, as [if v:] does it. *)
Definition py_truthy (v : pyval) : bool :=
  match v with
  | PNone => false
  | PBool b => b
  | PInt z => negb (Z.eqb z 0)
  | PStr s => negb (String.eqb s "")
  | PList l => match l with [] => false | _ => true end
  | PDict d => match d with [] => false | _ => true end
  end.

(** [v == s] for a string [s]: values of another type compare unequal. *)
Definition py_eq_str (v : pyval) (s : string) : bool :=
  match v with
  | PStr s' => String.eqb s' s
  | _ => false
  end.

(** [v is not None] *)
Definition py_is_not_None (v : pyval) : bool :=
  match v with
  | PNone => false
  | _ => true
  end.

(** Iteration [for x in v]: a list yields its items, a dict its keys, a
    string its characters; the other values are not iterable. *)
Fixpoint chars_of (s : string) : list pyval :=
  match s with
  | EmptyString => []
  | String c s' => PStr (String c EmptyString) :: chars_of s'
  end.

Definition py_iter (v : pyval) : result (list pyval) :=
  match v with
  | PList l => Ok l
  | PDict d => Ok (map (fun kv => PStr (fst kv)) d)
  | PStr s => Ok (chars_of s)
  | _ => Raise TypeError
  end.

(** *** The text of an integer, once in ASCII *)

Definition text := list ascii.

Definition code (c : ascii) : Z := Z.of_N (N_of_ascii c).

Definition is_digit (c : ascii) : bool :=
  (48 <=? code c)%Z && (code c <=? 57)%Z.

Definition digit_val (c : ascii) : Z := (code c - 48)%Z.

Definition is_space (c : ascii) : bool :=
  (code c =? 32)%Z || ((9 <=? code c)%Z && (code c <=? 13)%Z).

Fixpoint lstrip (l : text) : text :=
  match l with
  | c :: l' => if is_space c then lstrip l' else l
  | [] => []
  end.

Definition strip (l : text) : text := rev (lstrip (rev (lstrip l))).

(** Decimal digits, a single underscore allowed between two digits. *)
Fixpoint int_digits (acc : Z) (l : text) : option Z :=
  match l with
  | [] => Some acc
  | c :: l' =>
      if is_digit c then int_digits (10 * acc + digit_val c)%Z l'
      else if Ascii.eqb c "_" then
        match l' with
        | d :: _ => if is_digit d then int_digits acc l' else None
        | [] => None
        end
      else None
  end.

Definition int_unsigned (l : text) : option Z :=
  match l with
  | c :: _ => if is_digit c then int_digits 0 l else None
  | [] => None
  end.

(** The interpreter refuses to convert a text of more than this many
    digits ([sys.get_int_max_str_digits()], which nothing here changes);
    leading zeros count, underscores do not. *)
Definition int_max_str_digits : Z := 4300.

Definition int_limited (l : text) : option Z :=
  if (int_max_str_digits <? Z.of_nat (length (List.filter is_digit l)))%Z
  then None
  else int_unsigned l.

Definition int_of_text (l : text) : option Z :=
  match strip l with
  | "-"%char :: l' => option_map Z.opp (int_limited l')
  | "+"%char :: l' => int_limited l'
  | l' => int_limited l'
  end.

(** [any(p(x) for x in l)]: stops at the first true item, so a later item
    on which [p] would raise is never looked at. *)
Fixpoint py_any {A} (p : A -> result bool) (l : list A) : result bool :=
  match l with
  | [] => Ok false
  | x :: l' =>
      let* b := p x in
      if b then Ok true else py_any p l'
  end.

(** ** Text

    A Python [str] is kept as the bytes of its UTF-8 encoding, so
    [s.encode("utf8")] and [b.decode("utf8")] are the identity; the text
    algorithms below work on lists of characters. *)

Definition txt (s : string) : text := list_ascii_of_string s.
Definition str (l : text) : string := string_of_list_ascii l.
Definition chr (z : Z) : ascii := ascii_of_N (Z.to_N z).

(** The double quote, which a literal cannot hold. *)
Definition dq : ascii := chr 34.

(** *** [repr] of an int: decimal digits, most significant first *)

Fixpoint dec_digits (fuel : nat) (n : Z) (acc : text) : text :=
  match fuel with
  | O => acc
  | S f =>
      let acc' := chr (48 + n mod 10) :: acc in
      if (n <? 10)%Z then acc' else dec_digits f (n / 10)%Z acc'
  end.

Definition dec_nonneg (n : Z) : text :=
  dec_digits (S (Z.to_nat (Z.log2 n))) n [].

Definition repr_int (z : Z) : text :=
  if (z <? 0)%Z then "-"%char :: dec_nonneg (- z) else dec_nonneg z.

(** The number a run of digits stands for, [a] being what was read before. *)
Definition value (a : Z) (ds : text) : Z :=
  fold_left (fun a d => (10 * a + digit_val d)%Z) ds a.

(** *** The code points of a UTF-8 text *)

Fixpoint utf8_decode (l : text) : list Z :=
  match l with
  | [] => []
  | b0 :: r0 =>
      let n0 := code b0 in
      if (n0 <? 192)%Z then n0 :: utf8_decode r0
      else
        match r0 with
        | [] => [n0]
        | b1 :: r1 =>
            let n1 := (code b1 - 128)%Z in
            if (n0 <? 224)%Z then ((n0 - 192) * 64 + n1)%Z :: utf8_decode r1
            else
              match r1 with
              | [] => [n0; code b1]
              | b2 :: r2 =>
                  let n2 := (code b2 - 128)%Z in
                  if (n0 <? 240)%Z
                  then ((n0 - 224) * 4096 + n1 * 64 + n2)%Z :: utf8_decode r2
                  else
                    match r2 with
                    | [] => [n0; code b1; code b2]
                    | b3 :: r3 =>
                        ((n0 - 240) * 262144 + n1 * 4096 + n2 * 64
                         + (code b3 - 128))%Z :: utf8_decode r3
                    end
              end
        end
  end.

(** The UTF-8 bytes of a code point of the basic plane. *)
Definition utf8_encode_bmp (cp : Z) : text :=
  if (cp <? 128)%Z then [chr cp]
  else if (cp <? 2048)%Z then [chr (192 + cp / 64); chr (128 + cp mod 64)]
  else [chr (224 + cp / 4096); chr (128 + (cp / 64) mod 64);
        chr (128 + cp mod 64)].

Definition hex_char (d : Z) : ascii :=
  if (d <? 10)%Z then chr (48 + d) else chr (87 + d).

Definition hex4 (n : Z) : text :=
  [hex_char ((n / 4096) mod 16); hex_char ((n / 256) mod 16);
   hex_char ((n / 16) mod 16); hex_char (n mod 16)].

Definition hex_val (c : ascii) : option Z :=
  let n := code c in
  if (48 <=? n)%Z && (n <=? 57)%Z then Some (n - 48)%Z
  else if (97 <=? n)%Z && (n <=? 102)%Z then Some (n - 87)%Z
  else if (65 <=? n)%Z && (n <=? 70)%Z then Some (n - 55)%Z
  else None.

(** *** [int(v)]

    The character database of the interpreter (Unicode 14.0.0): the white
    space of [str.isspace], and the code points of the digit zero of every
    run of ten decimal digits. *)

Definition in_ranges (cp : Z) (l : list (Z * Z)) : bool :=
  existsb (fun r => (fst r <=? cp)%Z && (cp <=? snd r)%Z) l.

Definition unicode_spaces : list (Z * Z) :=
  [(9, 13); (28, 32); (133, 133); (160, 160); (5760, 5760); (8192, 8202);
   (8232, 8233); (8239, 8239); (8287, 8287); (12288, 12288)]%Z.

Definition unicode_isspace (cp : Z) : bool := in_ranges cp unicode_spaces.

Definition decimal_zeros : list Z :=
  [48; 1632; 1776; 1984; 2406; 2534; 2662; 2790; 2918; 3046; 3174; 3302;
   3430; 3558; 3664; 3792; 3872; 4160; 4240; 6112; 6160; 6470; 6608; 6784;
   6800; 6992; 7088; 7232; 7248; 42528; 43216; 43264; 43472; 43504; 43600;
   44016; 65296; 66720; 68912; 69734; 69872; 69942; 70096; 70384; 70736;
   70864; 71248; 71360; 71472; 71904; 72016; 72784; 73040; 73120; 92768;
   92864; 93008; 120782; 120792; 120802; 120812; 120822; 123200; 123632;
   125264; 130032]%Z.

Definition unicode_decimal (cp : Z) : option Z :=
  match find (fun z => (z <=? cp)%Z && (cp <? z + 10)%Z) decimal_zeros with
  | Some z => Some (cp - z)%Z
  | None => None
  end.

(** What [int] makes of a text before it parses it: a character of the
    ASCII range stays, any other white space becomes a blank and any other
    decimal digit its ASCII digit; at the first character that is neither
    the text ends, with a question mark in its place. *)
Fixpoint to_ascii (cps : list Z) : text :=
  match cps with
  | [] => []
  | cp :: r =>
      if (cp <? 127)%Z then chr cp :: to_ascii r
      else if unicode_isspace cp then " "%char :: to_ascii r
      else
        match unicode_decimal cp with
        | Some d => chr (48 + d) :: to_ascii r
        | None => ["?"%char]
        end
  end.

(** [int(v)]: an int is itself, a bool is 0 or 1, a string is parsed in
    base 10, anything else is a [TypeError]. *)
Definition py_int (v : pyval) : result Z :=
  match v with
  | PInt z => Ok z
  | PBool b => Ok (if b then 1 else 0)%Z
  | PStr s =>
      match int_of_text (to_ascii (utf8_decode (txt s))) with
      | Some z => Ok z
      | None => Raise ValueError
      end
  | _ => Raise TypeError
  end.

(** ** [json.dumps(v, separators=(",", ":"))] and [json.loads] *)

Module Json.

(** One character of a string under [ensure_ascii=True]. *)
Definition escape_char (cp : Z) : text :=
  if (cp =? 34)%Z then "\"%char :: [dq]
  else if (cp =? 92)%Z then txt "\\"
  else if (cp =? 8)%Z then txt "\b"
  else if (cp =? 12)%Z then txt "\f"
  else if (cp =? 10)%Z then txt "\n"
  else if (cp =? 13)%Z then txt "\r"
  else if (cp =? 9)%Z then txt "\t"
  else if (32 <=? cp)%Z && (cp <=? 126)%Z then [chr cp]
  else if (cp <? 65536)%Z then txt "\u" ++ hex4 cp
  else
    let n := (cp - 65536)%Z in
    txt "\u" ++ hex4 (55296 + (n / 1024) mod 1024)
    ++ txt "\u" ++ hex4 (56320 + n mod 1024).

Definition quote (s : string) : text :=
  dq :: concat (map escape_char (utf8_decode (txt s))) ++ [dq].

Fixpoint dumps (v : pyval) : text :=
  match v with
  | PNone => txt "null"
  | PBool true => txt "true"
  | PBool false => txt "false"
  | PInt z => repr_int z
  | PStr s => quote s
  | PList l =>
      "["%char ::
      (fix items (l : list pyval) : text :=
         match l with
         | [] => []
         | x :: l' =>
             dumps x ++ match l' with [] => [] | _ => ","%char :: items l' end
         end) l ++ ["]"%char]
  | PDict d =>
      "{"%char ::
      (fix members (d : list (string * pyval)) : text :=
         match d with
         | [] => []
         | (k, x) :: d' =>
             quote k ++ ":"%char :: dumps x
             ++ match d' with [] => [] | _ => ","%char :: members d' end
         end) d ++ ["}"%char]
  end.

(** [json.loads], in two passes: tokens, then values.  Floats, [NaN],
    [Infinity] and [\u] escapes of surrogates are outside the model and
    make it answer [None]. *)

Inductive token : Type :=
  | TLBrack | TRBrack | TLBrace | TRBrace | TColon | TComma
  | TNull | TTrue | TFalse
  | TInt (z : Z)
  | TStr (s : string).

Inductive mode : Type :=
  | Idle
  | InNum (neg : bool) (acc : option Z)
  | InStr (rev_acc : text)
  | InEsc (rev_acc : text)
  | InHex (rev_acc : text) (todo : nat) (v : Z).

Definition signed (neg : bool) (a : Z) : Z := if neg then (- a)%Z else a.

Definition is_json_space (c : ascii) : bool :=
  let n := code c in
  (n =? 32)%Z || (n =? 9)%Z || (n =? 10)%Z || (n =? 13)%Z.

(** What the end of a number leaves behind before the character that ends
    it is looked at. *)
Definition close_num (m : mode) (c : ascii) : option (list token * mode) :=
  match m with
  | InNum neg acc =>
      if is_digit c then Some ([], m)
      else match acc with
           | None => None
           | Some a =>
               if Ascii.eqb c "." || Ascii.eqb c "e" || Ascii.eqb c "E"
               then None
               else Some ([TInt (signed neg a)], Idle)
           end
  | _ => Some ([], m)
  end.

(** A character that ends a number and starts no fraction or exponent. *)
Definition ends_int (c : ascii) : bool :=
  negb (is_digit c)
  && negb (Ascii.eqb c "." || Ascii.eqb c "e" || Ascii.eqb c "E").

Definition emit (t : token) (r : option (list token)) : option (list token) :=
  option_map (cons t) r.

Fixpoint lex (m : mode) (l : text) : option (list token) :=
  match l with
  | [] =>
      match m with
      | Idle => Some []
      | InNum neg (Some a) => Some [TInt (signed neg a)]
      | _ => None
      end
  | c :: l' =>
      match close_num m c with
      | None => None
      | Some (out, m1) =>
          option_map (app out)
            match m1 with
            | Idle =>
                if is_json_space c then lex Idle l'
                else if Ascii.eqb c "[" then emit TLBrack (lex Idle l')
                else if Ascii.eqb c "]" then emit TRBrack (lex Idle l')
                else if Ascii.eqb c "{" then emit TLBrace (lex Idle l')
                else if Ascii.eqb c "}" then emit TRBrace (lex Idle l')
                else if Ascii.eqb c ":" then emit TColon (lex Idle l')
                else if Ascii.eqb c "," then emit TComma (lex Idle l')
                else if Ascii.eqb c dq then lex (InStr []) l'
                else if Ascii.eqb c "-" then lex (InNum true None) l'
                else if is_digit c then lex (InNum false (Some (digit_val c))) l'
                else
                  match c, l' with
                  | "n"%char, "u"%char :: "l"%char :: "l"%char :: r =>
                      emit TNull (lex Idle r)
                  | "t"%char, "r"%char :: "u"%char :: "e"%char :: r =>
                      emit TTrue (lex Idle r)
                  | "f"%char, "a"%char :: "l"%char :: "s"%char :: "e"%char :: r =>
                      emit TFalse (lex Idle r)
                  | _, _ => None
                  end
            | InNum neg acc =>
                match acc with
                | Some 0%Z => None
                | Some a => lex (InNum neg (Some (10 * a + digit_val c)%Z)) l'
                | None => lex (InNum neg (Some (digit_val c))) l'
                end
            | InStr acc =>
                if Ascii.eqb c dq then emit (TStr (str (rev acc))) (lex Idle l')
                else if Ascii.eqb c "\" then lex (InEsc acc) l'
                else if (code c <? 32)%Z then None
                else lex (InStr (c :: acc)) l'
            | InEsc acc =>
                if Ascii.eqb c dq || Ascii.eqb c "\" || Ascii.eqb c "/"
                then lex (InStr (c :: acc)) l'
                else if Ascii.eqb c "b" then lex (InStr (chr 8 :: acc)) l'
                else if Ascii.eqb c "f" then lex (InStr (chr 12 :: acc)) l'
                else if Ascii.eqb c "n" then lex (InStr (chr 10 :: acc)) l'
                else if Ascii.eqb c "r" then lex (InStr (chr 13 :: acc)) l'
                else if Ascii.eqb c "t" then lex (InStr (chr 9 :: acc)) l'
                else if Ascii.eqb c "u" then lex (InHex acc 4 0) l'
                else None
            | InHex acc todo v =>
                match hex_val c with
                | None => None
                | Some h =>
                    let v' := (16 * v + h)%Z in
                    match todo with
                    | 1%nat =>
                        if (55296 <=? v')%Z && (v' <=? 57343)%Z then None
                        else lex (InStr (rev (utf8_encode_bmp v') ++ acc)) l'
                    | S todo' => lex (InHex acc todo' v') l'
                    | O => None
                    end
                end
            end
      end
  end.

(** One character of [lex] where no look-ahead is needed (that is, outside
    the words [null], [true] and [false]): the tokens it completes and the
    mode it leaves; [steps] does a whole run of characters. *)
Definition step (m : mode) (c : ascii) : option (list token * mode) :=
  match close_num m c with
  | None => None
  | Some (out, m1) =>
      match m1 with
      | Idle =>
          if is_json_space c then Some (out, Idle)
          else if Ascii.eqb c "[" then Some (out ++ [TLBrack], Idle)
          else if Ascii.eqb c "]" then Some (out ++ [TRBrack], Idle)
          else if Ascii.eqb c "{" then Some (out ++ [TLBrace], Idle)
          else if Ascii.eqb c "}" then Some (out ++ [TRBrace], Idle)
          else if Ascii.eqb c ":" then Some (out ++ [TColon], Idle)
          else if Ascii.eqb c "," then Some (out ++ [TComma], Idle)
          else if Ascii.eqb c dq then Some (out, InStr [])
          else if Ascii.eqb c "-" then Some (out, InNum true None)
          else if is_digit c then Some (out, InNum false (Some (digit_val c)))
          else None
      | InNum neg acc =>
          match acc with
          | Some 0%Z => None
          | Some a => Some (out, InNum neg (Some (10 * a + digit_val c)%Z))
          | None => Some (out, InNum neg (Some (digit_val c)))
          end
      | InStr acc =>
          if Ascii.eqb c dq then Some (out ++ [TStr (str (rev acc))], Idle)
          else if Ascii.eqb c "\" then Some (out, InEsc acc)
          else if (code c <? 32)%Z then None
          else Some (out, InStr (c :: acc))
      | _ => None
      end
  end.

Fixpoint steps (m : mode) (l : text) : option (list token * mode) :=
  match l with
  | [] => Some ([], m)
  | c :: l' =>
      match step m c with
      | Some (ts, m') =>
          match steps m' l' with
          | Some (ts', m'') => Some (ts ++ ts', m'')
          | None => None
          end
      | None => None
      end
  end.

(** [d[k] = v] on an insertion-ordered dict. *)
Fixpoint dict_set (k : string) (v : pyval) (d : list (string * pyval))
  : list (string * pyval) :=
  match d with
  | [] => [(k, v)]
  | (k', v') :: d' =>
      if String.eqb k k' then (k, v) :: d' else (k', v') :: dict_set k v d'
  end.

Fixpoint parse_value (fuel : nat) (ts : list token)
  : option (pyval * list token) :=
  match fuel with
  | O => None
  | S f =>
      match ts with
      | TNull :: r => Some (PNone, r)
      | TTrue :: r => Some (PBool true, r)
      | TFalse :: r => Some (PBool false, r)
      | TInt z :: r => Some (PInt z, r)
      | TStr s :: r => Some (PStr s, r)
      | TLBrack :: TRBrack :: r => Some (PList [], r)
      | TLBrack :: r =>
          match parse_items f r with
          | Some (l, r') => Some (PList l, r')
          | None => None
          end
      | TLBrace :: TRBrace :: r => Some (PDict [], r)
      | TLBrace :: r =>
          match parse_members f [] r with
          | Some (d, r') => Some (PDict d, r')
          | None => None
          end
      | _ => None
      end
  end
with parse_items (fuel : nat) (ts : list token)
  : option (list pyval * list token) :=
  match fuel with
  | O => None
  | S f =>
      match parse_value f ts with
      | Some (v, TComma :: r) =>
          match parse_items f r with
          | Some (l, r') => Some (v :: l, r')
          | None => None
          end
      | Some (v, TRBrack :: r) => Some ([v], r)
      | _ => None
      end
  end
with parse_members (fuel : nat) (d : list (string * pyval)) (ts : list token)
  : option (list (string * pyval) * list token) :=
  match fuel with
  | O => None
  | S f =>
      match ts with
      | TStr k :: TColon :: r =>
          match parse_value f r with
          | Some (v, TComma :: r') => parse_members f (dict_set k v d) r'
          | Some (v, TRBrace :: r') => Some (dict_set k v d, r')
          | _ => None
          end
      | _ => None
      end
  end.

Definition loads (l : text) : option pyval :=
  match lex Idle l with
  | Some ts =>
      match parse_value (S (length ts)) ts with
      | Some (v, []) => Some v
      | _ => None
      end
  | None => None
  end.

End Json.

(** ** [base64.b64encode] and a strict [b64decode] *)

Module Base64.

Definition b64_char (i : Z) : ascii :=
  if (i <? 26)%Z then chr (65 + i)
  else if (i <? 52)%Z then chr (71 + i)
  else if (i <? 62)%Z then chr (i - 4)
  else if (i =? 62)%Z then "+"%char
  else "/"%char.

Definition b64_val (c : ascii) : option Z :=
  let n := code c in
  if (65 <=? n)%Z && (n <=? 90)%Z then Some (n - 65)%Z
  else if (97 <=? n)%Z && (n <=? 122)%Z then Some (n - 71)%Z
  else if (48 <=? n)%Z && (n <=? 57)%Z then Some (n + 4)%Z
  else if (n =? 43)%Z then Some 62%Z
  else if (n =? 47)%Z then Some 63%Z
  else None.

Fixpoint b64encode (l : text) : text :=
  match l with
  | [] => []
  | [a] =>
      let a := code a in
      [b64_char (a / 4); b64_char ((a mod 4) * 16); "="%char; "="%char]
  | [a; b] =>
      let a := code a in
      let b := code b in
      [b64_char (a / 4); b64_char ((a mod 4) * 16 + b / 16);
       b64_char ((b mod 16) * 4); "="%char]
  | a :: b :: c :: r =>
      let a := code a in
      let b := code b in
      let c := code c in
      b64_char (a / 4) :: b64_char ((a mod 4) * 16 + b / 16)
      :: b64_char ((b mod 16) * 4 + c / 64) :: b64_char (c mod 64)
      :: b64encode r
  end.

(** Groups of four characters; padding only in the last group. *)
Fixpoint b64decode (l : text) : option text :=
  match l with
  | [] => Some []
  | w :: x :: y :: z :: r =>
      match b64_val w, b64_val x with
      | Some w, Some x =>
          let a := chr (w * 4 + x / 16) in
          match b64_val y, b64_val z with
          | Some y, Some z =>
              option_map
                (fun t => a :: chr ((x mod 16) * 16 + y / 4)
                            :: chr ((y mod 4) * 64 + z) :: t)
                (b64decode r)
          | Some y, None =>
              if Ascii.eqb z "=" && match r with [] => true | _ => false end
              then Some [a; chr ((x mod 16) * 16 + y / 4)]
              else None
          | None, _ =>
              if Ascii.eqb y "=" && Ascii.eqb z "="
                 && match r with [] => true | _ => false end
              then Some [a]
              else None
          end
      | _, _ => None
      end
  | _ => None
  end.

End Base64.

(** ** [re.search]

    The fragment of the pattern language the two patterns of
    [get_spade_url] are written in, matched the way a backtracking engine
    does: leftmost, greedy.  [IGNORECASE] folds ASCII letters; characters
    outside ASCII are neither word characters nor folded. *)

Module Re.

Inductive re : Type :=
  | Eps
  | Lit (c : ascii)
  | Class (p : ascii -> bool)
  | Cat (r1 r2 : re)
  | Opt (r : re)
  | Plus (p : ascii -> bool)
  | Times (n : nat) (r : re)
  | Group (r : re).

Definition lower (c : ascii) : ascii :=
  if (65 <=? code c)%Z && (code c <=? 90)%Z then chr (code c + 32) else c.

Definition upper (c : ascii) : ascii :=
  if (97 <=? code c)%Z && (code c <=? 122)%Z then chr (code c - 32) else c.

Definition lit_ok (i : bool) (c c' : ascii) : bool :=
  if i then Ascii.eqb (lower c) (lower c') else Ascii.eqb c c'.

Definition class_ok (i : bool) (p : ascii -> bool) (c : ascii) : bool :=
  if i then p (lower c) || p (upper c) else p c.

(** [rmatch i r s caps k]: match [r] at the head of [s], then hand the rest
    and the groups closed so far to [k]; when [k] refuses, try the next
    way of matching [r]. *)
Fixpoint rmatch {R : Type} (i : bool) (r : re) (s : text) (caps : list text)
    (k : text -> list text -> option R) {struct r} : option R :=
  match r with
  | Eps => k s caps
  | Lit c =>
      match s with
      | c' :: s' => if lit_ok i c c' then k s' caps else None
      | [] => None
      end
  | Class p =>
      match s with
      | c' :: s' => if class_ok i p c' then k s' caps else None
      | [] => None
      end
  | Cat r1 r2 =>
      rmatch i r1 s caps (fun s' caps' => rmatch i r2 s' caps' k)
  | Opt r1 =>
      match rmatch i r1 s caps k with
      | Some x => Some x
      | None => k s caps
      end
  | Plus p =>
      (fix plus (s : text) : option R :=
         match s with
         | c' :: s' =>
             if class_ok i p c' then
               match plus s' with
               | Some x => Some x
               | None => k s' caps
               end
             else None
         | [] => None
         end) s
  | Times n r1 =>
      (fix times (n : nat) (s : text) (caps : list text) : option R :=
         match n with
         | O => k s caps
         | S n' => rmatch i r1 s caps (fun s' caps' => times n' s' caps')
         end) n s caps
  | Group r1 =>
      rmatch i r1 s caps
        (fun s' caps' => k s' (caps' ++ [firstn (length s - length s') s]))
  end.

(** The groups of the match that starts at the head of [s]. *)
Definition match_here (i : bool) (r : re) (s : text) : option (list text) :=
  rmatch i r s [] (fun _ caps => Some caps).

(** [re.search]: the first position at which the pattern matches. *)
Fixpoint search (i : bool) (r : re) (s : text) : option (list text) :=
  match match_here i r s with
  | Some caps => Some caps
  | None =>
      match s with
      | [] => None
      | _ :: s' => search i r s'
      end
  end.

(** [m.group(n)] for [n >= 1]. *)
Definition group (caps : list text) (n : nat) : result string :=
  match nth_error caps (n - 1) with
  | Some g => Ok (str g)
  | None => Raise IndexError
  end.



(** A literal run of characters, followed by [r]. *)
Definition lits (l : text) (r : re) : re :=
  fold_right (fun c r' => Cat (Lit c) r') r l.

Definition cls_hex (c : ascii) : bool :=
  is_digit c || (97 <=? code c)%Z && (code c <=? 102)%Z.

Definition cls_word (c : ascii) : bool :=
  is_digit c || (97 <=? code c)%Z && (code c <=? 122)%Z
  || (65 <=? code c)%Z && (code c <=? 90)%Z || Ascii.eqb c "_".

Definition cls_edge (c : ascii) : bool :=
  Ascii.eqb c "." || cls_word c || Ascii.eqb c "-" || Ascii.eqb c "/".

(** [https://static\.twitchcdn\.net/config/settings\.[0-9a-f]{32}\.js] *)
Definition settings_url : re :=
  lits (txt "https://static.twitchcdn.net/config/settings.")
    (Cat (Times 32 (Class cls_hex)) (lits (txt ".js") Eps)).

(** [src="(https://static\.twitchcdn\.net/config/settings\.[0-9a-f]{32}\.js)"] *)
Definition settings_pattern : re :=
  lits (txt "src=") (Cat (Lit dq) (Cat (Group settings_url) (Lit dq))).

(** [https://video-edge-[.\w\-/]+\.ts] *)
Definition spade_url : re :=
  lits (txt "https://video-edge-") (Cat (Plus cls_edge) (lits (txt ".ts") Eps)).

(** ["spade_url": ?"(https://video-edge-[.\w\-/]+\.ts)"] *)
Definition spade_pattern : re :=
  Cat (Lit dq) (lits (txt "spade_url") (Cat (Lit dq) (Cat (Lit ":")
    (Cat (Opt (Lit " ")) (Cat (Lit dq) (Cat (Group spade_url) (Lit dq))))))).

(** A pattern without groups. *)
Fixpoint groupless (r : re) : bool :=
  match r with
  | Eps | Lit _ | Class _ | Plus _ => true
  | Cat r1 r2 => groupless r1 && groupless r2
  | Opt r1 | Times _ r1 => groupless r1
  | Group _ => false
  end.


End Re.

(** ** Collaborators

    [channel.py] imports [Game] from [inventory] and [BASE_URL],
    [GQL_OPERATIONS], [ONLINE_DELAY] and [DROPS_ENABLED_TAG] from
    [constants]; neither module is part of the sources at hand, so the
    development is parametric in them.  [ONLINE_DELAY] is kept in seconds. *)

Class Collab : Type := {
  Game : Type;
  Game_new : pyval -> result Game;
  DROPS_ENABLED_TAG : string;
  BASE_URL : string;
  ONLINE_DELAY : Z
}.

(** The client object [Twitch]: of its state only [_user_id] is read here;
    its session and its GQL executor are reached through [await] events. *)
Record Twitch : Type := { _user_id : Z }.

Section Model.
Context `{Collab}.

(** ** class Stream

    The attributes [_twitch] and [channel] point back to the owning
    channel; a [Stream] lives in the [stream] field of that channel, so the
    owner is implicit in the embedding. *)

Record Stream : Type := {
  broadcast_id : pyval;
  viewer_count : pyval;
  drops_enabled : bool;
  game : option Game;
  title : pyval;
  _timestamp : Z
}.

(** [tag["id"] == DROPS_ENABLED_TAG] *)
Definition tag_is_drops (tag : pyval) : result bool :=
  let* i := py_getitem tag "id" in
  Ok (py_eq_str i DROPS_ENABLED_TAG).

(** [Stream.__init__(self, channel, data)]; [now] is the reading of
    [datetime.now(timezone.utc)]. *)
Definition Stream_init (data : pyval) (now : Z) : result Stream :=
  let* stream := py_getitem data "stream" in
  let* sid := py_getitem stream "id" in
  let* bid := py_int sid in
  let* vc := py_getitem stream "viewersCount" in
  let* tags := py_getitem stream "tags" in
  let* items := py_iter tags in
  let* de := py_any tag_is_drops items in
  let* settings := py_getitem data "broadcastSettings" in
  let* g := py_getitem settings "game" in
  let* gm := (if py_is_not_None g
              then (let* x := Game_new g in Ok (Some x))
              else Ok None) in
  let* t := py_getitem settings "title" in
  Ok {| broadcast_id := PInt bid; viewer_count := vc; drops_enabled := de;
        game := gm; title := t; _timestamp := now |}.

(** [Stream.from_directory(cls, channel, data)] *)
Definition Stream_from_directory (data : pyval) (now : Z) : result Stream :=
  let* bid := py_getitem data "id" in
  let* vc := py_getitem data "viewersCount" in
  let* tags := py_getitem data "tags" in
  let* items := py_iter tags in
  let* de := py_any tag_is_drops items in
  let* g := py_getitem data "game" in
  let* gm := Game_new g in
  let* t := py_getitem data "title" in
  Ok {| broadcast_id := bid; viewer_count := vc; drops_enabled := de;
        game := Some gm; title := t; _timestamp := now |}.

(** ** class Channel

    [_pending_stream_up] holds the handle of an [asyncio.Task]: its index
    in the task table of the loop. *)

Record Channel : Type := {
  _twitch : Twitch;
  id : Z;
  name : string;
  url : string;
  _spade_url : option string;
  stream : option Stream;
  _pending_stream_up : option nat
}.

Definition set_id (z : Z) (c : Channel) : Channel :=
  {| _twitch := _twitch c; id := z; name := name c; url := url c;
     _spade_url := _spade_url c; stream := stream c;
     _pending_stream_up := _pending_stream_up c |}.

Definition set_stream (s : option Stream) (c : Channel) : Channel :=
  {| _twitch := _twitch c; id := id c; name := name c; url := url c;
     _spade_url := _spade_url c; stream := s;
     _pending_stream_up := _pending_stream_up c |}.

Definition set_spade_url (u : option string) (c : Channel) : Channel :=
  {| _twitch := _twitch c; id := id c; name := name c; url := url c;
     _spade_url := u; stream := stream c;
     _pending_stream_up := _pending_stream_up c |}.

Definition set_pending_stream_up (t : option nat) (c : Channel) : Channel :=
  {| _twitch := _twitch c; id := id c; name := name c; url := url c;
     _spade_url := _spade_url c; stream := stream c;
     _pending_stream_up := t |}.

(** The properties [online] and [pending_online]. *)
Definition online (c : Channel) : bool :=
  match stream c with Some _ => true | None => false end.

Definition pending_online (c : Channel) : bool :=
  match _pending_stream_up c with Some _ => true | None => false end.

(** ** Coroutines

    What a coroutine can wait for, and what each wait gives back.  Fetching
    a page ([session.get] and [response.text]) is one wait, and so is a
    POST together with the reading of its status. *)

Inductive event : Type :=
  | Sleep (seconds : Z)
  | GqlRequest (operation : string) (variables : pyval)
  | HttpGetText (target : string)
  | HttpPost (target : string) (data : pyval).

Definition reply_of (ev : event) : Type :=
  match ev with
  | Sleep _ => unit
  | GqlRequest _ _ => pyval
  | HttpGetText _ => string
  | HttpPost _ _ => Z
  end.

(** A coroutine that has run up to its next [await]: it has returned,
    raised, or is suspended with the channel as it left it.  When it is
    resumed it gets the outcome of the wait (an exception is thrown into
    the [await]) and the channel as it is by then.  [Clock] reads the wall
    clock; it is no suspension point. *)
Inductive coro (A : Type) : Type :=
  | Done (s : Channel) (a : A)
  | Fail (s : Channel) (e : exn)
  | Clock (k : Z -> coro A)
  | Await (s : Channel) (ev : event)
          (k : result (reply_of ev) -> Channel -> coro A).
Arguments Done {A} s a.
Arguments Fail {A} s e.
Arguments Clock {A} k.
Arguments Await {A} s ev k.

Definition M (A : Type) : Type := Channel -> coro A.

Fixpoint cbind {A B} (c : coro A) (f : A -> M B) : coro B :=
  match c with
  | Done s a => f a s
  | Fail s e => Fail s e
  | Clock k => Clock (fun t => cbind (k t) f)
  | Await s ev k => Await s ev (fun o s' => cbind (k o s') f)
  end.

Definition ret {A} (a : A) : M A := fun s => Done s a.
Definition raise {A} (e : exn) : M A := fun s => Fail s e.
Definition bind {A B} (m : M A) (f : A -> M B) : M B :=
  fun s => cbind (m s) f.
Definition get_self : M Channel := fun s => Done s s.
Definition modify (f : Channel -> Channel) : M unit := fun s => Done (f s) tt.
Definition lift {A} (r : result A) : M A :=
  fun s => match r with Ok a => Done s a | Raise e => Fail s e end.
Definition clock : M Z := fun s => Clock (fun t => Done s t).
Definition await (ev : event) : M (reply_of ev) :=
  fun s => Await s ev (fun o s' =>
    match o with Ok r => Done s' r | Raise e => Fail s' e end).

End Model.

Arguments Done {_ A} s a.
Arguments Fail {_ A} s e.
Arguments Clock {_ A} k.
Arguments Await {_ A} s ev k.

Notation "x <- m ;; k" := (bind m (fun x => k))
  (at level 100, m at level 99, k at level 200, right associativity).
Notation "m ;;; k" := (bind m (fun _ => k))
  (at level 100, k at level 200, right associativity).

Section Methods.
Context `{Collab}.

(** [Channel.get_spade_url] *)
Definition get_spade_url : M string :=
  self <- get_self ;;
  streamer_html <- await (HttpGetText (url self)) ;;
  match Re.search true Re.settings_pattern (txt streamer_html) with
  | None => raise (MinerException "Error while spade_url extraction: step #1")
  | Some m =>
      streamer_settings <- lift (Re.group m 1) ;;
      settings_js <- await (HttpGetText streamer_settings) ;;
      match Re.search true Re.spade_pattern (txt settings_js) with
      | None =>
          raise (MinerException "Error while spade_url extraction: step #2")
      | Some m' => lift (Re.group m' 1)
      end
  end.

(** [Channel.get_stream] *)
Definition get_stream : M (option Stream) :=
  self <- get_self ;;
  response <- await (GqlRequest "GetStreamInfo"
                       (PDict [("channel", PStr (name self))])) ;;
  (if py_truthy response then
     stream_data <- lift (let* d := py_getitem response "data" in
                          py_getitem d "user") ;;
     cid <- lift (let* i := py_getitem stream_data "id" in py_int i) ;;
     modify (set_id cid) ;;;
     live <- lift (py_getitem stream_data "stream") ;;
     if py_truthy live then
       now <- clock ;;
       st <- lift (Stream_init stream_data now) ;;
       modify (set_stream (Some st))
     else modify (set_stream None)
   else ret tt) ;;;
  self' <- get_self ;;
  ret (stream self').

(** [Channel.check_online] *)
Definition check_online : M bool :=
  st <- get_stream ;;
  match st with
  | None => ret false
  | Some _ => ret true
  end.

(** [Channel._online_delay] *)
Definition _online_delay : M unit :=
  await (Sleep ONLINE_DELAY) ;;;
  get_stream ;;;
  modify (set_pending_stream_up None).

(** [Channel._encode_payload] *)
Definition _encode_payload (self : Channel) : result pyval :=
  match stream self with
  | None => Raise AssertionError
  | Some st =>
      let payload :=
        PList [PDict [("event", PStr "minute-watched");
                      ("properties",
                       PDict [("channel_id", PInt (id self));
                              ("broadcast_id", broadcast_id st);
                              ("player", PStr "site");
                              ("user_id", PInt (_user_id (_twitch self)))])]]
      in
      let json_event := Json.dumps payload in
      Ok (PDict [("data", PStr (str (Base64.b64encode json_event)))])
  end.

(** [Channel._send_watch]: [None] when offline, else whether the POST was
    answered with status 204.  The URL posted to is the one just cached or
    found in the cache; the debug log line leaves no trace here. *)
Definition _send_watch : M pyval :=
  self <- get_self ;;
  if negb (online self) then ret PNone
  else
    spade <- match _spade_url self with
             | None =>
                 u <- get_spade_url ;;
                 modify (set_spade_url (Some u)) ;;;
                 ret u
             | Some u => ret u
             end ;;
    self' <- get_self ;;
    data <- lift (_encode_payload self') ;;
    status <- await (HttpPost spade data) ;;
    ret (PBool (Z.eqb status 204)).

(** [Channel.__init__], awaited by [__new__]: the fields, then a first
    [get_stream]; the channel is handed out once that has returned. *)
Definition Channel_new (twitch : Twitch) (channel_name : string)
  : coro Channel :=
  cbind
    (get_stream
       {| _twitch := twitch; id := 0; name := channel_name;
          url := String.append BASE_URL (String.append "/" channel_name);
          _spade_url := None; stream := None;
          _pending_stream_up := None |})
    (fun _ s => Done s s).

(** ** Running a coroutine on its own

    The replies of the outside world, one per [await]; nobody else touches
    the channel while the coroutine is suspended. *)

Definition oracle : Type := forall ev : event, result (reply_of ev).

Inductive outcome (A : Type) : Type :=
  | Returned (s : Channel) (a : A)
  | Raised (s : Channel) (e : exn)
  | Blocked (s : Channel) (ev : event).
Arguments Returned {A} s a.
Arguments Raised {A} s e.
Arguments Blocked {A} s ev.

(** The events awaited, in order, and how the run ended. *)
Fixpoint run {A} (c : coro A) (now : Z) (os : list oracle)
  : list event * outcome A :=
  match c with
  | Done s a => ([], Returned s a)
  | Fail s e => ([], Raised s e)
  | Clock k => run (k now) now os
  | Await s ev k =>
      match os with
      | [] => ([ev], Blocked s ev)
      | o :: os' =>
          let (tr, r) := run (k (o ev) s) now os' in (ev :: tr, r)
      end
  end.

(** ** The asyncio loop

    A task is a coroutine together with the request to cancel it.  A task
    that has not run yet starts when the loop first resumes it; a task that
    is resumed with a cancellation pending gets [CancelledError] thrown
    into its [await]. *)

Inductive body : Type :=
  | NotStarted (c : M unit)
  | Waiting (ev : event) (k : result (reply_of ev) -> Channel -> coro unit).

Inductive task : Type :=
  | Pending (must_cancel : bool) (b : body)
  | Finished (r : result unit).

Record Loop : Type := {
  chan : Channel;
  tasks : list task
}.

(** [asyncio.create_task(c)] *)
Definition create_task (c : M unit) (w : Loop) : nat * Loop :=
  (length (tasks w),
   {| chan := chan w; tasks := tasks w ++ [Pending false (NotStarted c)] |}).

(** [t.cancel()]: nothing happens to a task that is done. *)
Definition cancel (t : nat) (w : Loop) : Loop :=
  match tasks w !! t with
  | Some (Pending _ b) =>
      {| chan := chan w; tasks := <[t := Pending true b]> (tasks w) |}
  | _ => w
  end.

(** A coroutine run up to its next suspension. *)
Inductive segment : Type :=
  | SDone (s : Channel)
  | SFail (s : Channel) (e : exn)
  | SAwait (s : Channel) (ev : event)
           (k : result (reply_of ev) -> Channel -> coro unit).

Fixpoint settle (now : Z) (c : coro unit) : segment :=
  match c with
  | Done s _ => SDone s
  | Fail s e => SFail s e
  | Clock k => settle now (k now)
  | Await s ev k => SAwait s ev k
  end.

(** The loop resumes task [t]: [o] answers what it waited for. *)
Definition resume (t : nat) (o : oracle) (now : Z) (w : Loop) : Loop :=
  match tasks w !! t with
  | Some (Pending must_cancel b) =>
      let c :=
        match b with
        | NotStarted m =>
            if must_cancel then Fail (chan w) CancelledError else m (chan w)
        | Waiting ev k =>
            k (if must_cancel then Raise CancelledError else o ev) (chan w)
        end in
      match settle now c with
      | SDone s =>
          {| chan := s; tasks := <[t := Finished (Ok tt)]> (tasks w) |}
      | SFail s e =>
          {| chan := s; tasks := <[t := Finished (Raise e)]> (tasks w) |}
      | SAwait s ev k =>
          {| chan := s;
             tasks := <[t := Pending false (Waiting ev k)]> (tasks w) |}
      end
  | _ => w
  end.

(** [Channel.set_online] *)
Definition set_online (w : Loop) : Loop :=
  if online (chan w) || pending_online (chan w) then w
  else
    let (t, w') := create_task _online_delay w in
    {| chan := set_pending_stream_up (Some t) (chan w'); tasks := tasks w' |}.

(** [Channel.set_offline] *)
Definition set_offline (w : Loop) : Loop :=
  let w1 :=
    match _pending_stream_up (chan w) with
    | Some t =>
        let w' := cancel t w in
        {| chan := set_pending_stream_up None (chan w'); tasks := tasks w' |}
    | None => w
    end in
  {| chan := set_stream None (chan w1); tasks := tasks w1 |}.

End Methods.

Arguments Returned {_ A} s a.
Arguments Raised {_ A} s e.
Arguments Blocked {_ A} s ev.

(** ** Vocabulary of the properties *)

Section Vocabulary.
Context `{Collab}.

(** The two wire shapes a [Stream] is built from. *)
Inductive shape : Type := Polled | Directory.

Definition construct (sh : shape) (data : pyval) (now : Z) : result Stream :=
  match sh with
  | Polled => Stream_init data now
  | Directory => Stream_from_directory data now
  end.

(** The tag collection of the input, where each shape keeps it. *)
Definition tag_collection (sh : shape) (data : pyval) : result pyval :=
  match sh with
  | Polled => let* st := py_getitem data "stream" in py_getitem st "tags"
  | Directory => py_getitem data "tags"
  end.

(** Some entry of the collection has the reserved tag id. *)
Definition has_drops_tag (items : list pyval) : Prop :=
  exists t, In t items /\ py_getitem t "id" = Ok (PStr DROPS_ENABLED_TAG).

Definition is_int (v : pyval) : Prop := exists z, v = PInt z.

(** The user record of a GQL response: [response["data"]["user"]]. *)
Definition user_record (response : pyval) : result pyval :=
  let* d := py_getitem response "data" in py_getitem d "user".

(** The watch ping, as it is to come out of the decoding. *)
Definition watch_payload (c b u : Z) : pyval :=
  PList [PDict [("event", PStr "minute-watched");
                ("properties",
                 PDict [("channel_id", PInt c); ("broadcast_id", PInt b);
                        ("player", PStr "site"); ("user_id", PInt u)])]].

(** The compact JSON text of the watch ping, around its three numbers. *)
Definition seg_head : text :=
  "["%char :: "{"%char :: Json.quote "event" ++ ":"%char
  :: Json.quote "minute-watched" ++ ","%char :: Json.quote "properties"
  ++ ":"%char :: "{"%char :: Json.quote "channel_id" ++ [":"%char].
Definition seg_broadcast : text := Json.quote "broadcast_id" ++ [":"%char].
Definition seg_user : text :=
  Json.quote "player" ++ ":"%char :: Json.quote "site" ++ ","%char
  :: Json.quote "user_id" ++ [":"%char].
Definition watch_text (rc rb ru : text) : text :=
  seg_head ++ rc ++ ","%char :: seg_broadcast ++ rb ++ ","%char
  :: seg_user ++ ru ++ txt "}}]".

(** No blank, tab, line break or other white space anywhere. *)
Definition no_whitespace (l : text) : Prop :=
  Forall (fun c => is_space c = false) l.

(** The two errors of the endpoint discovery. *)
Definition step1_error : exn :=
  MinerException "Error while spade_url extraction: step #1".

(** The query [get_stream] sends for a channel. *)
Definition stream_query (c : Channel) : event :=
  GqlRequest "GetStreamInfo" (PDict [("channel", PStr (name c))]).

End Vocabulary.

(** ** The loop at work *)

Section LoopVocabulary.
Context `{Collab}.

(** What can happen to a channel and its loop, one uninterrupted piece of
    code at a time: the two signals, the loop resuming a task, and any
    other code of the owner ([get_stream], [_send_watch], ... run on its
    behalf), which may write every field but [_pending_stream_up]: only
    [set_online], [set_offline] and [_online_delay] assign that one. *)
Inductive action : Type :=
  | SetOnline
  | SetOffline
  | Resume (t : nat) (o : oracle) (now : Z)
  | Other (f : Channel -> Channel).

Definition exec1 (w : Loop) (a : action) : Loop :=
  match a with
  | SetOnline => set_online w
  | SetOffline => set_offline w
  | Resume t o now => resume t o now w
  | Other f =>
      {| chan := set_pending_stream_up (_pending_stream_up (chan w)) (f (chan w));
         tasks := tasks w |}
  end.

Definition exec (acts : list action) (w : Loop) : Loop :=
  fold_left exec1 acts w.

(** A channel as its constructors leave it, on a loop without tasks. *)
Definition fresh (c : Channel) : Loop :=
  {| chan := set_pending_stream_up None c; tasks := [] |}.

Definition reachable (w : Loop) : Prop :=
  exists c acts, w = exec acts (fresh c).

Definition no_set_online (a : action) : Prop :=
  match a with SetOnline => False | _ => True end.

Definition is_resume (a : action) : Prop :=
  match a with Resume _ _ _ => True | _ => False end.

(** What a task runs when the loop resumes it. *)
Definition resumed (w : Loop) (o : oracle) (must_cancel : bool) (b : body)
  : coro unit :=
  match b with
  | NotStarted m =>
      if must_cancel then Fail (chan w) CancelledError else m (chan w)
  | Waiting ev k =>
      k (if must_cancel then Raise CancelledError else o ev) (chan w)
  end.

(** A coroutine that keeps [_pending_stream_up] at [p] as long as it is
    suspended, lets an exception thrown into an [await] pass through with
    the channel untouched, and returns in a state that satisfies [Q]. *)
Inductive steady {A} (p : option nat) (Q : Channel -> Prop) : coro A -> Prop :=
  | steady_done s a : Q s -> steady p Q (Done s a)
  | steady_fail s e : steady p Q (Fail s e)
  | steady_clock k : (forall t, steady p Q (k t)) -> steady p Q (Clock k)
  | steady_await s ev k :
      _pending_stream_up s = p ->
      (forall e s', k (Raise e) s' = Fail s' e) ->
      (forall r s', _pending_stream_up s' = p -> steady p Q (k (Ok r) s')) ->
      steady p Q (Await s ev k).

Definition cleared (s : Channel) : Prop := _pending_stream_up s = None.
Definition refers (p : option nat) (s : Channel) : Prop :=
  _pending_stream_up s = p.

(** Task [t] is a confirmation task. *)
Definition confirming (t : nat) (b : body) : Prop :=
  match b with
  | NotStarted m =>
      forall s, _pending_stream_up s = Some t -> steady (Some t) cleared (m s)
  | Waiting ev k =>
      (forall e s, k (Raise e) s = Fail s e) /\
      (forall r s, _pending_stream_up s = Some t ->
                   steady (Some t) cleared (k (Ok r) s))
  end.

(** Every task that is not done is a confirmation task, and it is the one
    the channel refers to unless its cancellation has been requested. *)
Definition task_ok (w : Loop) (i : nat) (t : task) : Prop :=
  match t with
  | Finished _ => True
  | Pending must_cancel b =>
      confirming i b /\
      (must_cancel = true \/ _pending_stream_up (chan w) = Some i)
  end.

Definition loop_ok (w : Loop) : Prop :=
  forall i t, tasks w !! i = Some t -> task_ok w i t.

(** Every task that is not done has its cancellation requested. *)
Definition all_cancelled (w : Loop) : Prop :=
  forall i must_cancel b,
    tasks w !! i = Some (Pending must_cancel b) -> must_cancel = true.

End LoopVocabulary.

(** ** More vocabulary: what a coroutine leaves alone *)

Section FrameVocabulary.
Context `{Collab}.

(** The channel an outcome leaves behind. *)
Definition state_of {A} (r : outcome A) : Channel :=
  match r with
  | Returned s _ => s
  | Raised s _ => s
  | Blocked s _ => s
  end.

(** Every state the coroutine shows satisfies [I], provided the states it
    is resumed with do, and what it returns satisfies [Q]. *)
Inductive holds {A} (I : Channel -> Prop) (Q : Channel -> A -> Prop)
  : coro A -> Prop :=
  | holds_done s a : I s -> Q s a -> holds I Q (Done s a)
  | holds_fail s e : I s -> holds I Q (Fail s e)
  | holds_clock k : (forall t, holds I Q (k t)) -> holds I Q (Clock k)
  | holds_await s ev k :
      I s -> (forall o s', I s' -> holds I Q (k o s')) ->
      holds I Q (Await s ev k).

(** [s] differs from [c] at most in [id] and [stream]. *)
Definition same_but_id_stream (c s : Channel) : Prop :=
  _twitch s = _twitch c /\ name s = name c /\ url s = url c /\
  _spade_url s = _spade_url c /\
  _pending_stream_up s = _pending_stream_up c.

(** [s] differs from [c] at most in [_spade_url]. *)
Definition same_but_spade_url (c s : Channel) : Prop :=
  _twitch s = _twitch c /\ id s = id c /\ name s = name c /\ url s = url c /\
  stream s = stream c /\ _pending_stream_up s = _pending_stream_up c.

Definition is_fetch (ev : event) : Prop :=
  match ev with HttpGetText _ => True | _ => False end.

(** A run in which other code touches the channel while the coroutine is
    suspended: with each reply comes what was done to the channel in the
    meantime. *)
Fixpoint run_with {A} (c : coro A) (now : Z)
    (os : list (oracle * (Channel -> Channel))) : list event * outcome A :=
  match c with
  | Done s a => ([], Returned s a)
  | Fail s e => ([], Raised s e)
  | Clock k => run_with (k now) now os
  | Await s ev k =>
      match os with
      | [] => ([ev], Blocked s ev)
      | (o, f) :: os' =>
          let (tr, r) := run_with (k (o ev) (f s)) now os' in (ev :: tr, r)
      end
  end.

(** [Channel.__eq__]: another channel is compared by [id]; for any other
    object the answer is [NotImplemented] (here [None]). *)
Definition Channel_eq (self : Channel) (other : Channel + pyval) : option bool :=
  match other with
  | inl c => Some (Z.eqb (id self) (id c))
  | inr _ => None
  end.

(** [Channel.__hash__]: the built-in [hash], here [h], of the pair of the
    class name and the id. *)
Definition Channel_hash (h : string * Z -> Z) (self : Channel) : Z :=
  h ("Channel", id self).

(** White space only, as [str.strip] and [int] drop it at both ends. *)
Definition blank (l : text) : Prop :=
  Forall (fun c => is_space c = true) l.

(** A well-formed tag entry that is not the reserved one. *)
Definition other_tag (t : pyval) : Prop :=
  exists v, py_getitem t "id" = Ok v /\ py_eq_str v DROPS_ENABLED_TAG = false.




End FrameVocabulary.

(** ** Sample data *)

Module Sample.

(** A stand-in for [inventory.Game]: the id and the name of the game. *)
#[local] Instance collab : Collab := {|
  Game := Z * pyval;
  Game_new := fun v =>
    let* i := py_getitem v "id" in
    let* z := py_int i in
    let* n := py_getitem v "name" in
    Ok (z, n);
  DROPS_ENABLED_TAG := "c2542d6d-cd10-4532-919b-3d19f30a768b";
  BASE_URL := "https://www.twitch.tv";
  ONLINE_DELAY := 120
|}.

Definition fortnite : pyval := PDict [("id", PStr "33214"); ("name", PStr "Fortnite")].

Definition two_tags : pyval :=
  PList [PDict [("id", PStr "6ea6bca4-4712-4ab9-a906-e3336a9d8039")];
         PDict [("id", PStr "c2542d6d-cd10-4532-919b-3d19f30a768b")]].

(** The user record of a "GetStreamInfo" answer for a live channel. *)
Definition live_user : pyval :=
  PDict [("id", PStr "123");
         ("stream", PDict [("id", PStr "456"); ("viewersCount", PInt 10);
                           ("tags", two_tags)]);
         ("broadcastSettings", PDict [("game", fortnite); ("title", PStr "hello")])].

(** The same for a live channel whose stream lacks the reserved tag. *)
Definition plain_user : pyval :=
  PDict [("id", PStr "123");
         ("stream",
          PDict [("id", PStr "456"); ("viewersCount", PInt 10);
                 ("tags",
                  PList [PDict [("id",
                                 PStr "6ea6bca4-4712-4ab9-a906-e3336a9d8039")]])]);
         ("broadcastSettings", PDict [("game", fortnite); ("title", PStr "hello")])].

Definition offline_user : pyval :=
  PDict [("id", PStr "123"); ("stream", PNone);
         ("broadcastSettings", PDict [("game", PNone); ("title", PStr "")])].

(** A user record whose stream lacks its viewer count. *)
Definition broken_user : pyval :=
  PDict [("id", PStr "123"); ("stream", PDict [("id", PStr "456")]);
         ("broadcastSettings", PDict [("game", PNone); ("title", PStr "")])].

Definition response (user : pyval) : pyval :=
  PDict [("data", PDict [("user", user)])].

(** An entry of a directory listing. *)
Definition entry : pyval :=
  PDict [("id", PStr "456"); ("viewersCount", PInt 10); ("tags", two_tags);
         ("game", fortnite); ("title", PStr "hello");
         ("broadcaster", PDict [("id", PStr "123"); ("displayName", PStr "Someone")])].

Definition twitch : Twitch := {| _user_id := 789 |}.

Definition offline_channel : Channel :=
  {| _twitch := twitch; id := 0; name := "someone";
     url := "https://www.twitch.tv/someone"; _spade_url := None;
     stream := None; _pending_stream_up := None |}.

Definition a_stream : Stream :=
  {| broadcast_id := PInt 456; viewer_count := PInt 10; drops_enabled := true;
     game := None; title := PStr "hello"; _timestamp := 0 |}.

Definition online_channel : Channel :=
  {| _twitch := twitch; id := 123; name := "someone";
     url := "https://www.twitch.tv/someone"; _spade_url := None;
     stream := Some a_stream; _pending_stream_up := None |}.

(** An outside world that answers every query with [r], sleeps without
    incident, serves [page] for every fetch and accepts every POST. *)
Definition world (r : result pyval) (page : string) : oracle :=
  fun ev =>
    match ev return result (reply_of ev) with
    | Sleep _ => Ok tt
    | GqlRequest _ _ => r
    | HttpGetText _ => Ok page
    | HttpPost _ _ => Ok 204%Z
    end.

(** A streamer page and a settings script. *)
Definition settings_js_url : string :=
  "https://static.twitchcdn.net/config/settings.0123456789abcdef0123456789abcdef.js".
Definition spade : string := "https://video-edge-c2a0bc.abs.hls.ttvnw.net/v1/seg/x.ts".
Definition page : string :=
  str (txt "<html><script SRC=" ++ dq :: txt settings_js_url
       ++ dq :: txt "></script></html>").
Definition script : string :=
  str (txt "window.cfg={" ++ dq :: txt "spade_url" ++ dq :: txt ": " ++
       dq :: txt spade ++ dq :: txt "}").

Definition calm : oracle := world (Ok (response live_user)) "".
Definition broken : oracle := world (Raise (TransportError "gql")) "".

(** An offline channel that got the "stream up" signal, and whose
    confirmation task has started to sleep. *)
Definition waiting_loop : Loop :=
  exec [SetOnline; Resume 0 calm 0] (fresh offline_channel).

(** The same, woken up, and the query then failing in transport. *)
Definition failed_loop : Loop :=
  exec [Resume 0 calm 0; Resume 0 broken 0] waiting_loop.

(** The sleeping confirmation overtaken by the "stream down" signal. *)
Definition cancelled_loop : Loop := exec [SetOffline] waiting_loop.

End Sample.

(** One step of a coroutine: open the monad, run up to the next test. *)
Ltac mstep :=
  unfold bind, lift, modify, ret, raise, get_self, clock, await;
  cbn [cbind run settle].

(** A trace, event by event: each is the first or the second alternative,
    the second being at hand. *)
Ltac fetched :=
  repeat (apply List.Forall_cons; [first [now left|right; assumption]|]);
  apply List.Forall_nil.

(** * Properties *)

Section StreamProps.
Context `{Collab}.

Lemma py_eq_str_true v s : py_eq_str v s = true <-> v = PStr s.
Proof.
  destruct v; simpl; split; try discriminate.
  - intros E. apply String.eqb_eq in E. now subst.
  - intros E. injection E as ->. apply String.eqb_refl.
Qed.

Lemma py_any_drops items b :
  py_any tag_is_drops items = Ok b -> (b = true <-> has_drops_tag items).
Proof.
  revert b. induction items as [|x l IH]; simpl; intros b E.
  - injection E as <-. split; [discriminate|]. intros (t & [] & _).
  - unfold tag_is_drops at 1 in E.
    destruct (py_getitem x "id") as [v|e] eqn:Ex; simpl in E; [|discriminate].
    destruct (py_eq_str v DROPS_ENABLED_TAG) eqn:Ev.
    + injection E as <-. split; [intros _|reflexivity].
      exists x. split; [now left|]. apply py_eq_str_true in Ev. now subst.
    + specialize (IH b E). rewrite IH. split.
      * intros (t & Ht & Et). exists t. split; [now right|exact Et].
      * intros (t & [<-|Ht] & Et).
        -- rewrite Ex in Et. injection Et as ->.
           assert (py_eq_str (PStr DROPS_ENABLED_TAG) DROPS_ENABLED_TAG = true)
             by now apply py_eq_str_true.
           congruence.
        -- exists t. now split.
Qed.

(** C5: a Stream built from either wire shape, whose input keeps the list
    [items] as its tag collection, has [drops_enabled] set exactly when
    some entry of [items] has the reserved drops-enabled tag id. *)
Theorem drops_enabled_iff_tagged (sh : shape) (data : pyval) (now : Z)
    (s : Stream) (items : list pyval) :
  construct sh data now = Ok s ->
  tag_collection sh data = Ok (PList items) ->
  (drops_enabled s = true <-> has_drops_tag items).
Proof.
  destruct sh; cbn [construct tag_collection];
    unfold Stream_init, Stream_from_directory; intros E T.
  - destruct (py_getitem data "stream") as [st|]; cbn [rbind] in E, T;
      [|discriminate].
    destruct (py_getitem st "id") as [sid|]; cbn [rbind] in E; [|discriminate].
    destruct (py_int sid) as [bid|]; cbn [rbind] in E; [|discriminate].
    destruct (py_getitem st "viewersCount") as [vc|]; cbn [rbind] in E;
      [|discriminate].
    rewrite T in E. cbn [rbind py_iter] in E.
    destruct (py_any tag_is_drops items) as [de|] eqn:E4; cbn [rbind] in E;
      [|discriminate].
    destruct (py_getitem data "broadcastSettings") as [bs|]; cbn [rbind] in E;
      [|discriminate].
    destruct (py_getitem bs "game") as [g|]; cbn [rbind] in E; [|discriminate].
    destruct (if py_is_not_None g then _ else _) as [gm|]; cbn [rbind] in E;
      [|discriminate].
    destruct (py_getitem bs "title") as [t|]; cbn [rbind] in E; [|discriminate].
    injection E as <-. cbn [drops_enabled]. now apply py_any_drops.
  - destruct (py_getitem data "id") as [bid|]; cbn [rbind] in E; [|discriminate].
    destruct (py_getitem data "viewersCount") as [vc|]; cbn [rbind] in E;
      [|discriminate].
    rewrite T in E. cbn [rbind py_iter] in E.
    destruct (py_any tag_is_drops items) as [de|] eqn:E4; cbn [rbind] in E;
      [|discriminate].
    destruct (py_getitem data "game") as [g|]; cbn [rbind] in E; [|discriminate].
    destruct (Game_new g) as [gm|]; cbn [rbind] in E; [|discriminate].
    destruct (py_getitem data "title") as [t|]; cbn [rbind] in E; [|discriminate].
    injection E as <-. cbn [drops_enabled]. now apply py_any_drops.
Qed.

(** The polled shape coerces the id: [int(stream["id"])]. *)
Lemma Stream_init_broadcast_id_int (data : pyval) (now : Z) (s : Stream) :
  Stream_init data now = Ok s -> is_int (broadcast_id s).
Proof.
  unfold Stream_init. intros E.
  destruct (py_getitem data "stream") as [st|]; simpl in E; [|discriminate].
  destruct (py_getitem st "id") as [sid|]; simpl in E; [|discriminate].
  destruct (py_int sid) as [bid|]; simpl in E; [|discriminate].
  destruct (py_getitem st "viewersCount") as [vc|]; simpl in E; [|discriminate].
  destruct (py_getitem st "tags") as [tags|]; simpl in E; [|discriminate].
  destruct (py_iter tags) as [items|]; simpl in E; [|discriminate].
  destruct (py_any tag_is_drops items) as [de|]; simpl in E; [|discriminate].
  destruct (py_getitem data "broadcastSettings") as [bs|]; simpl in E; [|discriminate].
  destruct (py_getitem bs "game") as [g|]; simpl in E; [|discriminate].
  destruct (if py_is_not_None g then _ else _) as [gm|]; simpl in E; [|discriminate].
  destruct (py_getitem bs "title") as [t|]; simpl in E; [|discriminate].
  injection E as <-. now exists bid.
Qed.

(** The directory shape stores [data["id"]] as it came. *)
Lemma Stream_from_directory_broadcast_id (data : pyval) (now : Z) (s : Stream) :
  Stream_from_directory data now = Ok s ->
  py_getitem data "id" = Ok (broadcast_id s).
Proof.
  unfold Stream_from_directory. intros E.
  destruct (py_getitem data "id") as [bid|]; simpl in E; [|discriminate].
  destruct (py_getitem data "viewersCount") as [vc|]; simpl in E; [|discriminate].
  destruct (py_getitem data "tags") as [tags|]; simpl in E; [|discriminate].
  destruct (py_iter tags) as [items|]; simpl in E; [|discriminate].
  destruct (py_any tag_is_drops items) as [de|]; simpl in E; [|discriminate].
  destruct (py_getitem data "game") as [g|]; simpl in E; [|discriminate].
  destruct (Game_new g) as [gm|]; simpl in E; [|discriminate].
  destruct (py_getitem data "title") as [t|]; simpl in E; [|discriminate].
  now injection E as <-.
Qed.

End StreamProps.

Section StreamExamples.
#[local] Existing Instance Sample.collab.

Lemma drops_enabled_iff_tagged_witness :
  (exists s, construct Directory Sample.entry 7 = Ok s /\
     drops_enabled s = true /\
     (drops_enabled s = true <->
      has_drops_tag
        [PDict [("id", PStr "6ea6bca4-4712-4ab9-a906-e3336a9d8039")];
         PDict [("id", PStr "c2542d6d-cd10-4532-919b-3d19f30a768b")]])) /\
  (exists s, construct Polled Sample.plain_user 7 = Ok s /\
     drops_enabled s = false /\
     (drops_enabled s = true <->
      has_drops_tag
        [PDict [("id", PStr "6ea6bca4-4712-4ab9-a906-e3336a9d8039")]])).
Proof.
  split; eexists; (split; [reflexivity|]); (split; [reflexivity|]).
  - exact (drops_enabled_iff_tagged Directory Sample.entry 7 _ _
             eq_refl eq_refl).
  - exact (drops_enabled_iff_tagged Polled Sample.plain_user 7 _ _
             eq_refl eq_refl).
Defined.

(** C6, the failing input: a directory entry whose id is the string "456"
    gives a Stream whose [broadcast_id] is that string, not an integer,
    whereas the polled shape of the same session gives the integer 456. *)
Theorem from_directory_keeps_string_id :
  (exists s, Stream_from_directory Sample.entry 7 = Ok s /\
             broadcast_id s = PStr "456" /\ ~ is_int (broadcast_id s)) /\
  (exists s, Stream_init Sample.live_user 7 = Ok s /\
             broadcast_id s = PInt 456).
Proof.
  split; eexists; (split; [reflexivity|]); simpl.
  - split; [reflexivity|]. intros [z Hz]. discriminate.
  - reflexivity.
Qed.

End StreamExamples.

Section ReconcileProps.
Context `{Collab}.

(** C3: when the answer to the query is a response whose user record has
    the integer id [z], [get_stream] returns the [stream] field it leaves
    behind, and: if the record reports a live stream (from which a Stream
    can be built), the channel is online with [id = z]; if it reports none,
    [stream] is [None] and the channel is offline. *)
Theorem get_stream_reconciles (ch : Channel) (now : Z) (o : oracle)
    (resp sd live : pyval) (z : Z) :
  o (stream_query ch) = Ok resp ->
  py_truthy resp = true ->
  user_record resp = Ok sd ->
  (let* i := py_getitem sd "id" in py_int i) = Ok z ->
  py_getitem sd "stream" = Ok live ->
  (py_truthy live = true -> forall st, Stream_init sd now = Ok st ->
   exists ch',
     run (get_stream ch) now [o] = ([stream_query ch], Returned ch' (stream ch'))
     /\ stream ch' = Some st /\ online ch' = true /\ id ch' = z) /\
  (py_truthy live = false ->
   exists ch',
     run (get_stream ch) now [o] = ([stream_query ch], Returned ch' (stream ch'))
     /\ stream ch' = None /\ online ch' = false /\ id ch' = z).
Proof.
  intros Ho Ht Hu Hz Hl. unfold user_record in Hu.
  split.
  - intros Hlive st Hst.
    exists (set_stream (Some st) (set_id z ch)).
    split; [|now repeat split].
    unfold get_stream, stream_query in *. mstep. rewrite Ho. mstep. rewrite Ht. mstep.
    rewrite Hu. mstep. rewrite Hz. mstep. rewrite Hl. mstep.
    rewrite Hlive. mstep. rewrite Hst. reflexivity.
  - intros Hdead.
    exists (set_stream None (set_id z ch)).
    split; [|now repeat split].
    unfold get_stream, stream_query in *. mstep. rewrite Ho. mstep. rewrite Ht. mstep.
    rewrite Hu. mstep. rewrite Hz. mstep. rewrite Hl. mstep.
    rewrite Hdead. reflexivity.
Qed.

(** C10: when the executor answers with an empty or otherwise falsy
    response, [get_stream] leaves the channel as it was and returns the
    stream it already had. *)
Theorem get_stream_falsy_response (ch : Channel) (now : Z) (o : oracle)
    (resp : pyval) :
  o (stream_query ch) = Ok resp ->
  py_truthy resp = false ->
  run (get_stream ch) now [o] = ([stream_query ch], Returned ch (stream ch)).
Proof.
  intros Ho Hf. unfold get_stream, stream_query in *. mstep.
  rewrite Ho. mstep. rewrite Hf. reflexivity.
Qed.

(** C8: on an offline channel [_send_watch] returns at once, before any
    [await]: nothing is fetched or posted, whatever the outside world would
    have answered, and the channel, cached URL included, is as before. *)
Theorem send_watch_offline (ch : Channel) :
  stream ch = None ->
  _send_watch ch = Done ch PNone /\
  forall now os, run (_send_watch ch) now os = ([], Returned ch PNone).
Proof.
  intros Hs.
  assert (E : _send_watch ch = Done ch PNone).
  { unfold _send_watch, bind, get_self, online. simpl. rewrite Hs. reflexivity. }
  split; [exact E|]. intros now os. rewrite E. reflexivity.
Qed.

End ReconcileProps.

Section ReconcileExamples.
#[local] Existing Instance Sample.collab.

Lemma get_stream_reconciles_witness :
  (exists ch',
     run (get_stream Sample.offline_channel) 7
         [Sample.world (Ok (Sample.response Sample.live_user)) ""]
     = ([stream_query Sample.offline_channel], Returned ch' (stream ch'))
     /\ online ch' = true /\ id ch' = 123%Z) /\
  (exists ch',
     run (get_stream Sample.online_channel) 7
         [Sample.world (Ok (Sample.response Sample.offline_user)) ""]
     = ([stream_query Sample.online_channel], Returned ch' (stream ch'))
     /\ stream ch' = None /\ online ch' = false /\ id ch' = 123%Z).
Proof.
  split.
  - destruct (get_stream_reconciles Sample.offline_channel 7
                (Sample.world (Ok (Sample.response Sample.live_user)) "")
                (Sample.response Sample.live_user) Sample.live_user
                (PDict [("id", PStr "456"); ("viewersCount", PInt 10);
                        ("tags", Sample.two_tags)]) 123
                eq_refl eq_refl eq_refl eq_refl eq_refl) as [Hlive _].
    destruct (Hlive eq_refl _ eq_refl) as (ch' & Hr & _ & Ho & Hi).
    exists ch'. auto.
  - destruct (get_stream_reconciles Sample.online_channel 7
                (Sample.world (Ok (Sample.response Sample.offline_user)) "")
                (Sample.response Sample.offline_user) Sample.offline_user
                PNone 123
                eq_refl eq_refl eq_refl eq_refl eq_refl) as [_ Hdead].
    exact (Hdead eq_refl).
Defined.

Lemma get_stream_falsy_response_witness :
  run (get_stream Sample.online_channel) 7 [Sample.world (Ok (PDict [])) ""]
  = ([stream_query Sample.online_channel],
     Returned Sample.online_channel (Some Sample.a_stream)).
Proof.
  apply (get_stream_falsy_response Sample.online_channel 7
           (Sample.world (Ok (PDict [])) "") (PDict [])); reflexivity.
Defined.

Lemma send_watch_offline_witness :
  _send_watch Sample.offline_channel = Done Sample.offline_channel PNone /\
  run (_send_watch Sample.offline_channel) 7
      [Sample.world (Ok (PDict [])) ""; Sample.world (Ok (PDict [])) ""]
  = ([], Returned Sample.offline_channel PNone).
Proof.
  destruct (send_watch_offline Sample.offline_channel eq_refl) as [E Hrun].
  split; [exact E|apply Hrun].
Defined.

End ReconcileExamples.

Section LoopProps.
Context `{Collab}.

(** *** [set_online] *)

(** C2: [set_online] on a channel that is online or pending changes nothing
    and schedules nothing; hence calling it twice is calling it once, and
    two calls in a row add at most one task to the loop. *)
Theorem set_online_idempotent (w : Loop) :
  (online (chan w) || pending_online (chan w) = true -> set_online w = w) /\
  set_online (set_online w) = set_online w /\
  length (tasks (set_online (set_online w))) <= S (length (tasks w)).
Proof.
  assert (Hnoop : forall v, online (chan v) || pending_online (chan v) = true ->
                            set_online v = v).
  { intros v Hv. unfold set_online. now rewrite Hv. }
  assert (Htwice : set_online (set_online w) = set_online w).
  { apply Hnoop. unfold set_online.
    destruct (online (chan w) || pending_online (chan w)) eqn:E; [exact E|].
    simpl. apply orb_true_r. }
  split; [apply Hnoop|]. split; [exact Htwice|].
  rewrite Htwice. unfold set_online.
  destruct (online (chan w) || pending_online (chan w)); simpl.
  - lia.
  - rewrite length_app. simpl. lia.
Qed.

(** *** Coroutines that leave the task reference alone *)

Lemma steady_weaken {A} p (Q Q' : Channel -> Prop) (c : coro A) :
  (forall s, Q s -> Q' s) -> steady p Q c -> steady p Q' c.
Proof.
  intros HQ. induction 1; constructor; auto.
Qed.

Lemma steady_cbind {A B} p (Q Q' : Channel -> Prop) (c : coro A) (f : A -> M B) :
  steady p Q c ->
  (forall s a, Q s -> steady p Q' (f a s)) ->
  steady p Q' (cbind c f).
Proof.
  intros Hc Hf. induction Hc; cbn [cbind].
  - now apply Hf.
  - constructor.
  - constructor. auto.
  - constructor; auto.
    intros e s'. cbn beta. rewrite H1. reflexivity.
Qed.

Lemma steady_bind {A B} p (Q Q' : Channel -> Prop) (m : M A) (f : A -> M B) s :
  steady p Q (m s) ->
  (forall s' a, Q s' -> steady p Q' (f a s')) ->
  steady p Q' (bind m f s).
Proof. apply steady_cbind. Qed.

Lemma await_steady p ev s :
  refers p s -> steady p (refers p) (await ev s).
Proof.
  intros Hs. unfold await. constructor; auto.
  intros r s' Hs'. now constructor.
Qed.

Lemma lift_steady {A} p (r : result A) s :
  refers p s -> steady p (refers p) (lift r s).
Proof. intros Hs. unfold lift. destruct r; now constructor. Qed.

Lemma get_stream_steady p s :
  refers p s -> steady p (refers p) (get_stream s).
Proof.
  intros Hs. unfold get_stream.
  apply steady_bind with (Q := refers p); [now constructor|].
  intros s1 self H1.
  apply steady_bind with (Q := refers p); [now apply await_steady|].
  intros s2 response H2.
  apply steady_bind with (Q := refers p).
  - destruct (py_truthy response); [|now constructor].
    apply steady_bind with (Q := refers p); [now apply lift_steady|].
    intros s3 stream_data H3.
    apply steady_bind with (Q := refers p); [now apply lift_steady|].
    intros s4 cid H4.
    apply steady_bind with (Q := refers p); [now constructor|].
    intros s5 _ H5.
    apply steady_bind with (Q := refers p); [now apply lift_steady|].
    intros s6 live H6.
    destruct (py_truthy live); [|now constructor].
    apply steady_bind with (Q := refers p).
    { unfold clock. constructor. intros t. now constructor. }
    intros s7 now H7.
    apply steady_bind with (Q := refers p); [now apply lift_steady|].
    intros s8 st H8. now constructor.
  - intros s3 _ H3.
    apply steady_bind with (Q := refers p); [now constructor|].
    intros s4 self' H4. now constructor.
Qed.

Lemma online_delay_steady p s :
  refers p s -> steady p cleared (_online_delay s).
Proof.
  intros Hs. unfold _online_delay.
  apply steady_bind with (Q := refers p); [now apply await_steady|].
  intros s1 _ H1.
  apply steady_bind with (Q := refers p); [now apply get_stream_steady|].
  intros s2 _ H2. now constructor.
Qed.

Lemma settle_steady p Q now (c : coro unit) :
  steady p Q c ->
  match settle now c with
  | SDone s => Q s
  | SFail _ _ => True
  | SAwait s ev k =>
      refers p s /\ (forall e s', k (Raise e) s' = Fail s' e) /\
      (forall r s', refers p s' -> steady p Q (k (Ok r) s'))
  end.
Proof.
  induction 1 as [| |k Hk IH|]; cbn [settle]; auto. apply IH.
Qed.

(** *** The invariant of the loop *)

Lemma loop_ok_fresh c : loop_ok (fresh c).
Proof. intros i t Hl. discriminate. Qed.

Lemma loop_ok_set_online w : loop_ok w -> loop_ok (set_online w).
Proof.
  intros Hw. unfold set_online.
  destruct (online (chan w) || pending_online (chan w)) eqn:E; [exact Hw|].
  apply orb_false_elim in E as [_ E]. unfold pending_online in E.
  intros i t Hl. cbn in Hl.
  apply lookup_snoc_Some in Hl as [[_ Hl]|[-> <-]].
  - specialize (Hw i t Hl). destruct t as [mc b|r]; [|exact I].
    destruct Hw as [Hc [Hm|Hr]]; split; auto.
    rewrite Hr in E. discriminate.
  - split; [|now right].
    intros s Hs. now apply online_delay_steady.
Qed.

Lemma set_offline_tasks w i mc b :
  loop_ok w ->
  tasks (set_offline w) !! i = Some (Pending mc b) ->
  mc = true /\ exists mc', tasks w !! i = Some (Pending mc' b).
Proof.
  intros Hw.
  assert (Hnone : tasks w !! i = Some (Pending mc b) ->
            _pending_stream_up (chan w) <> Some i ->
            mc = true /\ exists mc', tasks w !! i = Some (Pending mc' b)).
  { intros Hl Hne. destruct (Hw _ _ Hl) as [_ [->|Hr]];
      [eauto|now destruct (Hne Hr)]. }
  unfold set_offline.
  destruct (_pending_stream_up (chan w)) as [t|] eqn:Er.
  - unfold cancel. destruct (tasks w !! t) as [[mc0 b0|r0]|] eqn:Et; cbn.
    + intros Hl. apply list_lookup_insert_Some in Hl as [(<- & E & _)|[Hne Hl]].
      * injection E as <- <-. eauto.
      * apply (Hnone Hl). congruence.
    + intros Hl. apply (Hnone Hl). intros [= ->]. congruence.
    + intros Hl. apply (Hnone Hl). intros [= ->]. congruence.
  - cbn. intros Hl. apply (Hnone Hl). discriminate.
Qed.

Lemma set_offline_all_cancelled w : loop_ok w -> all_cancelled (set_offline w).
Proof.
  intros Hw i mc b Hl. now destruct (set_offline_tasks w i mc b Hw Hl).
Qed.

Lemma loop_ok_set_offline w : loop_ok w -> loop_ok (set_offline w).
Proof.
  intros Hw i t Hl. destruct t as [mc b|r]; [|exact I].
  destruct (set_offline_tasks w i mc b Hw Hl) as [-> [mc' Hl']].
  split; [|now left]. now destruct (Hw _ _ Hl').
Qed.

Lemma loop_ok_other w f : loop_ok w -> loop_ok (exec1 w (Other f)).
Proof. intros Hw i t Hl. specialize (Hw i t Hl). now destruct t. Qed.

Lemma resumed_cancelled w o t b :
  confirming t b -> resumed w o true b = Fail (chan w) CancelledError.
Proof. destruct b as [m|ev k]; cbn; [reflexivity|]. intros [Hk _]. apply Hk. Qed.

Lemma resumed_steady w o t b :
  confirming t b -> refers (Some t) (chan w) ->
  steady (Some t) cleared (resumed w o false b).
Proof.
  destruct b as [m|ev k]; cbn; intros Hc Hr; [now apply Hc|].
  destruct Hc as [Hk Hs]. destruct (o ev) as [r|e].
  - now apply Hs.
  - rewrite Hk. constructor.
Qed.

Lemma loop_ok_resume w t o now : loop_ok w -> loop_ok (resume t o now w).
Proof.
  intros Hw. unfold resume.
  destruct (tasks w !! t) as [[mc b|r]|] eqn:Et; try exact Hw.
  fold (resumed w o mc b).
  destruct (Hw _ _ Et) as [Hc Hm].
  destruct mc.
  - rewrite (resumed_cancelled w o t b Hc). cbn.
    intros i u Hl. apply list_lookup_insert_Some in Hl as [(_ & <- & _)|[_ Hl]].
    + exact I.
    + apply (Hw _ _ Hl).
  - destruct Hm as [|Hr]; [discriminate|].
    pose proof (settle_steady _ _ now _ (resumed_steady w o t b Hc Hr)) as Hs.
    assert (Hrest : forall i u, t <> i -> tasks w !! i = Some u ->
              forall s, task_ok {| chan := s; tasks := [] |} i u).
    { intros i u Hne Hl s. specialize (Hw _ _ Hl). destruct u as [mc' b'|]; auto.
      destruct Hw as [Hc' [->|Hr']]; [split; auto|congruence]. }
    destruct (settle now (resumed w o false b)) as [s|s e|s ev k];
      intros i u Hl; cbn in Hl;
      apply list_lookup_insert_Some in Hl as [(<- & <- & _)|[Hne Hl]];
      try exact I; try (specialize (Hrest i u Hne Hl s); now destruct u).
    destruct Hs as (Hs & Hk & Hst). split; [split; auto|now right].
Qed.

Lemma loop_ok_exec1 w a : loop_ok w -> loop_ok (exec1 w a).
Proof.
  destruct a; cbn [exec1].
  - apply loop_ok_set_online.
  - apply loop_ok_set_offline.
  - apply loop_ok_resume.
  - apply loop_ok_other.
Qed.

Lemma exec_snoc acts a w : exec (acts ++ [a]) w = exec1 (exec acts w) a.
Proof. unfold exec. now rewrite fold_left_app. Qed.

Lemma reachable_ok w : reachable w -> loop_ok w.
Proof.
  intros (c & acts & ->). induction acts as [|a acts IH] using rev_ind.
  - apply loop_ok_fresh.
  - rewrite exec_snoc. now apply loop_ok_exec1.
Qed.

(** *** After [set_offline] *)

Lemma resume_all_cancelled w t o now :
  loop_ok w -> all_cancelled w ->
  chan (resume t o now w) = chan w /\ all_cancelled (resume t o now w).
Proof.
  intros Hw Hc. unfold resume.
  destruct (tasks w !! t) as [[mc b|r]|] eqn:Et; auto.
  fold (resumed w o mc b).
  rewrite (Hc _ _ _ Et). destruct (Hw _ _ Et) as [Hb _].
  rewrite (resumed_cancelled w o t b Hb). cbn. split; [reflexivity|].
  intros i mc' b' Hl. apply list_lookup_insert_Some in Hl as [(_ & E & _)|[_ Hl]].
  - discriminate.
  - apply (Hc _ _ _ Hl).
Qed.

Lemma all_cancelled_exec acts w :
  Forall no_set_online acts -> loop_ok w -> all_cancelled w ->
  loop_ok (exec acts w) /\ all_cancelled (exec acts w).
Proof.
  induction acts as [|a acts IH] using rev_ind; intros Hn Hw Hc; [now split|].
  apply Forall_app in Hn as [Hn Ha]. apply Forall_inv in Ha.
  destruct (IH Hn Hw Hc) as [Hw' Hc']. rewrite exec_snoc.
  split; [now apply loop_ok_exec1|].
  destruct a as [| |t o now|f]; cbn [exec1].
  - destruct Ha.
  - now apply set_offline_all_cancelled.
  - now apply resume_all_cancelled.
  - exact Hc'.
Qed.

(** C1: whatever a channel has been through, after [set_offline] it is
    neither online nor pending; the task it referred to, if not done, has
    its cancellation requested; from then on, as long as [set_online] is
    not called again, no resumption of any task changes the channel; so if
    only tasks run, the channel stays as [set_offline] left it, its
    [stream] absent. *)
Theorem set_offline_wins (w : Loop) :
  reachable w ->
  online (chan (set_offline w)) = false /\
  pending_online (chan (set_offline w)) = false /\
  (forall t mc b, _pending_stream_up (chan w) = Some t ->
     tasks w !! t = Some (Pending mc b) ->
     tasks (set_offline w) !! t = Some (Pending true b)) /\
  (forall acts, Forall no_set_online acts -> forall t o now,
     chan (resume t o now (exec acts (set_offline w)))
     = chan (exec acts (set_offline w))) /\
  (forall acts, Forall is_resume acts ->
     chan (exec acts (set_offline w)) = chan (set_offline w) /\
     stream (chan (exec acts (set_offline w))) = None).
Proof.
  intros Hr. pose proof (reachable_ok w Hr) as Hw.
  pose proof (loop_ok_set_offline w Hw) as Hw'.
  pose proof (set_offline_all_cancelled w Hw) as Hc'.
  assert (Hoff : stream (chan (set_offline w)) = None) by reflexivity.
  assert (Hpend : _pending_stream_up (chan (set_offline w)) = None).
  { unfold set_offline. destruct (_pending_stream_up (chan w)) eqn:E; cbn; auto. }
  split; [unfold online; now rewrite Hoff|].
  split; [unfold pending_online; now rewrite Hpend|].
  split; [|split].
  - intros t mc b Et Hl. unfold set_offline, cancel. rewrite Et, Hl. cbn.
    apply list_lookup_insert_eq. now apply lookup_lt_Some in Hl.
  - intros acts Hn t o now.
    destruct (all_cancelled_exec acts _ Hn Hw' Hc') as [Hw2 Hc2].
    now apply resume_all_cancelled.
  - intros acts Hres.
    assert (chan (exec acts (set_offline w)) = chan (set_offline w)) as E.
    { induction acts as [|a acts IH] using rev_ind; [reflexivity|].
      apply Forall_app in Hres as [Hres Ha]. apply Forall_inv in Ha.
      rewrite exec_snoc. destruct a as [| |t o now|f]; try destruct Ha.
      cbn [exec1]. rewrite <- (IH Hres).
      assert (Forall no_set_online acts) as Hn.
      { eapply Forall_impl; [exact Hres|]. intros []; cbn; auto. }
      destruct (all_cancelled_exec acts _ Hn Hw' Hc') as [Hw2 Hc2].
      now apply resume_all_cancelled. }
    split; [exact E|]. now rewrite E.
Qed.

End LoopProps.

Section ConfirmationProps.
Context `{Collab}.

Lemma resume_last (l : list task) (x : task) (c : Channel) o now :
  resume (length l) o now {| chan := c; tasks := l ++ [x] |} =
  match x with
  | Pending mc b =>
      match settle now (resumed {| chan := c; tasks := l ++ [x] |} o mc b) with
      | SDone s => {| chan := s; tasks := l ++ [Finished (Ok tt)] |}
      | SFail s e => {| chan := s; tasks := l ++ [Finished (Raise e)] |}
      | SAwait s ev k =>
          {| chan := s; tasks := l ++ [Pending false (Waiting ev k)] |}
      end
  | Finished _ => {| chan := c; tasks := l ++ [x] |}
  end.
Proof.
  unfold resume. cbn [tasks chan].
  rewrite (list_lookup_middle l [] x (length l) eq_refl).
  destruct x as [mc b|r]; [|reflexivity].
  fold (resumed {| chan := c; tasks := l ++ [Pending mc b] |} o mc b).
  assert (E : forall y, <[length l := y]> (l ++ [Pending mc b]) = l ++ [y]).
  { intros y. rewrite insert_app_r_alt by lia.
    now replace (length l - length l) with 0 by lia. }
  destruct (settle now _); now rewrite E.
Qed.

(** [get_stream] starts by sending its query. *)
Lemma get_stream_awaits (ch : Channel) :
  exists k, get_stream ch = Await ch (stream_query ch) k.
Proof. unfold get_stream. mstep. eexists. reflexivity. Qed.

(** A coroutine that has no [await] left, followed by a last assignment. *)
Lemma settle_then_modify {A} (c : coro A) now (f : Channel -> Channel) :
  forall tr,
  (forall s a, run c now [] = (tr, Returned s a) ->
     settle now (cbind c (fun _ => modify f)) = SDone (f s)) /\
  (forall s e, run c now [] = (tr, Raised s e) ->
     settle now (cbind c (fun _ => modify f)) = SFail s e).
Proof.
  induction c as [s a|s e|k IH|s ev k IH]; intros tr; cbn [run cbind settle].
  - split; intros s' x E; [|discriminate]. now injection E as _ <- _.
  - split; intros s' x E; [discriminate|]. now injection E as _ <- <-.
  - apply IH.
  - split; intros s' x E; discriminate.
Qed.

(** The general form: whenever a confirmation task that is not cancelled
    finishes by returning, the channel is no longer pending. *)
Lemma confirmation_returns_cleared (w : Loop) (t : nat) (b : body) o now :
  reachable w ->
  tasks w !! t = Some (Pending false b) ->
  tasks (resume t o now w) !! t = Some (Finished (Ok tt)) ->
  pending_online (chan (resume t o now w)) = false.
Proof.
  intros Hr Hl. pose proof (reachable_ok w Hr) as Hw.
  destruct (Hw _ _ Hl) as [Hc [|Href]]; [discriminate|].
  pose proof (settle_steady _ _ now _ (resumed_steady w o t b Hc Href)) as Hs.
  unfold resume. rewrite Hl. fold (resumed w o false b).
  assert (Hlt : t < length (tasks w)) by now apply lookup_lt_Some in Hl.
  destruct (settle now (resumed w o false b)) as [s|s e|s ev k]; cbn;
    rewrite list_lookup_insert_eq by exact Hlt; intros E; try discriminate.
  unfold pending_online. now rewrite Hs.
Qed.

(** C4, as the code has it: on a channel that is neither online nor
    pending, [set_online] schedules a task which, after the sleep, sends
    the query of [get_stream]; whenever that [get_stream] returns (a live
    stream found, none found, or a falsy response), the task then clears
    the reference and finishes: [pending_online] is false. *)
Theorem confirmation_clears_pending (w : Loop) (o1 o2 o3 : oracle) (n1 n2 n3 : Z) :
  online (chan w) = false ->
  pending_online (chan w) = false ->
  o2 (Sleep ONLINE_DELAY) = Ok tt ->
  let t := length (tasks w) in
  let w3 := resume t o2 n2 (resume t o1 n1 (set_online w)) in
  let w4 := resume t o3 n3 w3 in
  (exists k, tasks w3 !! t
             = Some (Pending false (Waiting (stream_query (chan w)) k))) /\
  pending_online (chan w3) = true /\
  forall ch' r,
    run (get_stream (chan w3)) n3 [o3] = ([stream_query (chan w3)], Returned ch' r) ->
    chan w4 = set_pending_stream_up None ch' /\
    tasks w4 !! t = Some (Finished (Ok tt)) /\
    pending_online (chan w4) = false.
Proof.
  intros Hon Hpe Hsleep t w3 w4. subst w4 w3.
  set (ch := set_pending_stream_up (Some t) (chan w)).
  destruct (get_stream_awaits ch) as [k Hk].
  assert (E3 : resume t o2 n2 (resume t o1 n1 (set_online w))
               = {| chan := ch;
                    tasks := tasks w ++
                      [Pending false
                         (Waiting (stream_query ch)
                            (fun o s' => cbind (k o s')
                               (fun _ => modify (set_pending_stream_up None))))] |}).
  { unfold set_online. rewrite Hon, Hpe. cbn [orb create_task chan tasks].
    fold t. fold ch. unfold t at 2. rewrite resume_last. cbn [resumed chan].
    unfold _online_delay. mstep.
    unfold t. rewrite resume_last. cbn [resumed chan]. rewrite Hsleep.
    cbn [cbind]. rewrite Hk. cbn [cbind settle]. reflexivity. }
  rewrite E3. cbn [chan tasks].
  split; [eexists; apply list_lookup_middle; reflexivity|].
  split; [reflexivity|].
  intros ch' r Hrun.
  unfold t. rewrite resume_last. cbn [resumed chan].
  rewrite Hk in Hrun. cbn [run] in Hrun.
  destruct (run (k (o3 (stream_query ch)) ch) n3 []) as [tr r0] eqn:Erun.
  injection Hrun as -> ->.
  destruct (settle_then_modify (k (o3 (stream_query ch)) ch) n3
              (set_pending_stream_up None) []) as [Hret _].
  rewrite (Hret _ _ Erun).
  split; [reflexivity|]. split; [apply list_lookup_middle; reflexivity|].
  reflexivity.
Qed.

End ConfirmationProps.

Section LoopExamples.
#[local] Existing Instance Sample.collab.

Lemma set_online_idempotent_witness :
  set_online (fresh Sample.online_channel) = fresh Sample.online_channel /\
  set_online (set_online (fresh Sample.offline_channel))
  = set_online (fresh Sample.offline_channel) /\
  length (tasks (set_online (set_online (fresh Sample.offline_channel)))) = 1.
Proof.
  split.
  - exact (proj1 (set_online_idempotent (fresh Sample.online_channel)) eq_refl).
  - split; [|reflexivity].
    exact (proj1 (proj2 (set_online_idempotent (fresh Sample.offline_channel)))).
Defined.

Lemma set_offline_wins_witness :
  reachable Sample.waiting_loop /\
  pending_online (chan Sample.waiting_loop) = true /\
  online (chan (set_offline Sample.waiting_loop)) = false /\
  pending_online (chan (set_offline Sample.waiting_loop)) = false /\
  forall acts, Forall is_resume acts ->
    stream (chan (exec acts (set_offline Sample.waiting_loop))) = None.
Proof.
  assert (Hr : reachable Sample.waiting_loop).
  { exists Sample.offline_channel, [SetOnline; Resume 0 Sample.calm 0].
    reflexivity. }
  destruct (set_offline_wins Sample.waiting_loop Hr) as (Hon & Hpe & _ & _ & Hq).
  split; [exact Hr|]. split; [reflexivity|]. split; [exact Hon|].
  split; [exact Hpe|]. intros acts Ha. apply (Hq acts Ha).
Defined.

(** C4 as stated fails when the reconciliation raises: the query of the
    woken confirmation task dies in transport, the task finishes with that
    error, and the channel is still pending. *)
Lemma online_delay_error_keeps_pending :
  tasks Sample.failed_loop !! 0 = Some (Finished (Raise (TransportError "gql"))) /\
  pending_online (chan Sample.failed_loop) = true.
Proof. split; reflexivity. Qed.

Lemma confirmation_clears_pending_witness :
  pending_online
    (chan (exec [SetOnline; Resume 0 Sample.calm 1; Resume 0 Sample.calm 2;
                 Resume 0 Sample.calm 3] (fresh Sample.offline_channel)))
  = false.
Proof.
  destruct (confirmation_clears_pending (fresh Sample.offline_channel)
              Sample.calm Sample.calm Sample.calm 1 2 3
              eq_refl eq_refl eq_refl) as (_ & _ & Hfin).
  destruct (Hfin _ _ eq_refl) as (_ & _ & Hp). exact Hp.
Defined.

End LoopExamples.

Section RegexProps.
Import Re.








End RegexProps.

Section RegexPatterns.
Import Re.



Lemma groupless_lits l r : groupless (lits l r) = groupless r.
Proof. induction l; cbn; auto. Qed.




End RegexPatterns.

Section DiscoveryProps.
Context `{Collab}.



End DiscoveryProps.

Section DiscoveryExamples.
#[local] Existing Instance Sample.collab.


(** On the sample page and script the URLs found are the ones written
    there. *)
Example get_spade_url_sample :
  run (get_spade_url Sample.offline_channel) 0
      [Sample.world (Ok PNone) Sample.page;
       Sample.world (Ok PNone) Sample.script]
  = ([HttpGetText "https://www.twitch.tv/someone";
      HttpGetText Sample.settings_js_url],
     Returned Sample.offline_channel Sample.spade).
Proof. reflexivity. Qed.

End DiscoveryExamples.

Section TextProps.

Lemma code_chr z : (0 <= z < 256)%Z -> code (chr z) = z.
Proof.
  intros Hz. unfold code, chr. rewrite N_ascii_embedding; lia.
Qed.

Lemma chr_code c : chr (code c) = c.
Proof. unfold code, chr. rewrite N2Z.id. apply ascii_N_embedding. Qed.

Lemma code_range c : (0 <= code c < 256)%Z.
Proof. unfold code. pose proof (N_ascii_bounded c). lia. Qed.

Lemma is_digit_range c : is_digit c = true <-> (48 <= code c <= 57)%Z.
Proof.
  unfold is_digit. rewrite andb_true_iff, !Z.leb_le. tauto.
Qed.

Lemma digit_chr n :
  (0 <= n < 10)%Z ->
  is_digit (chr (48 + n)) = true /\ digit_val (chr (48 + n)) = n.
Proof.
  intros Hn. rewrite is_digit_range. unfold digit_val.
  rewrite code_chr by lia. lia.
Qed.

Lemma value_app a ds1 ds2 : value a (ds1 ++ ds2) = value (value a ds1) ds2.
Proof. unfold value. apply fold_left_app. Qed.

Lemma dec_digits_spec fuel : forall n acc,
  (0 <= n < 2 ^ Z.of_nat fuel)%Z -> (0 < fuel)%nat ->
  exists d ds,
    dec_digits fuel n acc = (d :: ds) ++ acc /\
    Forall (fun c => is_digit c = true) (d :: ds) /\
    value 0 (d :: ds) = n /\
    (0 < n -> 0 < digit_val d)%Z.
Proof.
  induction fuel as [|f IH]; intros n acc Hn Hf; [lia|].
  cbn [dec_digits].
  assert (Hm : (0 <= n mod 10 < 10)%Z) by (apply Z.mod_pos_bound; lia).
  destruct (digit_chr (n mod 10) Hm) as [Hd Hv].
  destruct (n <? 10)%Z eqn:E.
  - apply Z.ltb_lt in E. exists (chr (48 + n mod 10)), [].
    rewrite Z.mod_small in * by lia.
    split; [reflexivity|]. split; [now repeat constructor|].
    split; [cbn; lia|lia].
  - apply Z.ltb_ge in E.
    assert (Hq : (1 <= n / 10)%Z) by (apply Z.div_le_lower_bound; lia).
    assert (Hq2 : (n / 10 < 2 ^ Z.of_nat f)%Z).
    { apply Z.div_lt_upper_bound; [lia|].
      rewrite Nat2Z.inj_succ, Z.pow_succ_r in Hn by lia. lia. }
    assert (Hf' : (0 < f)%nat).
    { destruct f; [|lia]. cbn in Hq2. lia. }
    destruct (IH (n / 10)%Z (chr (48 + n mod 10) :: acc))
      as (d & ds & E1 & Hall & Hval & Hnz); [lia|exact Hf'|].
    exists d, (ds ++ [chr (48 + n mod 10)]). rewrite E1.
    split; [cbn; now rewrite <- app_assoc|].
    change (d :: ds ++ [chr (48 + n mod 10)])
      with ((d :: ds) ++ [chr (48 + n mod 10)]).
    split; [|split].
    + apply Forall_app. split; [exact Hall|now repeat constructor].
    + rewrite value_app, Hval. cbn. rewrite Hv.
      pose proof (Z.div_mod n 10). lia.
    + intros _. apply Hnz. lia.
Qed.

Lemma dec_nonneg_spec n :
  (0 <= n)%Z ->
  exists d ds,
    dec_nonneg n = d :: ds /\
    Forall (fun c => is_digit c = true) (d :: ds) /\
    value 0 (d :: ds) = n /\
    (0 < n -> 0 < digit_val d)%Z.
Proof.
  intros Hn. unfold dec_nonneg.
  destruct (dec_digits_spec (S (Z.to_nat (Z.log2 n))) n [])
    as (d & ds & E & Hrest); [|lia|].
  - rewrite Nat2Z.inj_succ, Z2Nat.id by apply Z.log2_nonneg.
    destruct (Z.eq_dec n 0%Z) as [->|Hne]; [cbn; lia|].
    split; [lia|]. apply Z.log2_spec. lia.
  - exists d, ds. rewrite E, app_nil_r. auto.
Qed.

End TextProps.

Section LexProps.
Import Json.

Lemma option_map_app_nil {A} (o : option (list A)) : option_map (app []) o = o.
Proof. now destruct o. Qed.

Lemma lex_end_of_int neg a c rest :
  ends_int c = true ->
  lex (InNum neg (Some a)) (c :: rest)
  = emit (TInt (signed neg a)) (lex Idle (c :: rest)).
Proof.
  unfold ends_int. intros Hc. apply andb_prop in Hc as [Hd He].
  apply negb_true_iff in Hd, He.
  assert (E : lex Idle (c :: rest)
              = option_map (app []) (lex Idle (c :: rest)))
    by now rewrite option_map_app_nil.
  rewrite E at 1. clear E.
  cbn [lex close_num]. rewrite Hd, He. cbn [option_map].
  rewrite !option_map_app_nil. unfold emit.
  match goal with |- option_map _ ?x = _ => destruct x end; reflexivity.
Qed.

Lemma lex_more_digits neg c rest : forall ds a,
  Forall (fun c => is_digit c = true) ds -> (0 < a)%Z ->
  lex (InNum neg (Some a)) (ds ++ c :: rest)
  = lex (InNum neg (Some (value a ds))) (c :: rest).
Proof.
  induction ds as [|d ds IH]; intros a Hall Ha; [reflexivity|].
  apply Forall_cons in Hall as [Hd Hall].
  change ((d :: ds) ++ c :: rest) with (d :: (ds ++ c :: rest)).
  cbn [lex close_num]. rewrite Hd. cbn [option_map].
  rewrite option_map_app_nil.
  apply is_digit_range in Hd.
  destruct a as [|p|p]; try lia.
  rewrite IH; [reflexivity|exact Hall|unfold digit_val; lia].
Qed.

Lemma lex_first_digit d l :
  is_digit d = true ->
  lex Idle (d :: l) = lex (InNum false (Some (digit_val d))) l.
Proof.
  intros Hd.
  destruct d as [[] [] [] [] [] [] [] []]; vm_compute in Hd;
    try discriminate Hd; cbn [lex close_num option_map];
    rewrite option_map_app_nil; reflexivity.
Qed.

Lemma lex_first_digit_signed neg d l :
  is_digit d = true ->
  lex (InNum neg None) (d :: l) = lex (InNum neg (Some (digit_val d))) l.
Proof.
  intros Hd. cbn [lex close_num]. rewrite Hd. cbn [option_map].
  now rewrite option_map_app_nil.
Qed.

(** The digits of a non-negative number, read after an optional sign. *)
Lemma lex_dec_nonneg neg n c rest :
  (0 <= n)%Z -> ends_int c = true ->
  lex (InNum neg None) (dec_nonneg n ++ c :: rest)
  = emit (TInt (signed neg n)) (lex Idle (c :: rest)) /\
  lex Idle (dec_nonneg n ++ c :: rest)
  = emit (TInt n) (lex Idle (c :: rest)).
Proof.
  intros Hn Hc.
  destruct (dec_nonneg_spec n Hn) as (d & ds & E & Hall & Hval & Hnz).
  rewrite E. apply Forall_cons in Hall as [Hd Hall].
  change ((d :: ds) ++ c :: rest) with (d :: (ds ++ c :: rest)).
  rewrite (lex_first_digit d), (lex_first_digit_signed neg d) by exact Hd.
  assert (Hv : value (digit_val d) ds = n).
  { rewrite <- Hval. unfold value. cbn [fold_left]. reflexivity. }
  destruct (Z.eq_dec n 0%Z) as [->|Hne].
  - assert (E0 : dec_nonneg 0 = ["0"%char]) by reflexivity.
    rewrite E0 in E. injection E as <- <-. cbn [app].
    split; now apply lex_end_of_int.
  - rewrite !lex_more_digits by (auto; apply Hnz; lia). rewrite Hv.
    split; [now apply lex_end_of_int|].
    now apply (lex_end_of_int false).
Qed.

(** A number as [repr] prints it, followed by a character that ends it,
    is read back as that number. *)
Lemma lex_repr_int z c rest :
  ends_int c = true ->
  lex Idle (repr_int z ++ c :: rest) = emit (TInt z) (lex Idle (c :: rest)).
Proof.
  intros Hc. unfold repr_int. destruct (z <? 0)%Z eqn:E.
  - apply Z.ltb_lt in E.
    change (("-"%char :: dec_nonneg (- z)) ++ c :: rest)
      with ("-"%char :: (dec_nonneg (- z) ++ c :: rest)).
    assert (Em : forall l, lex Idle ("-"%char :: l) = lex (InNum true None) l).
    { intros l. cbn [lex close_num option_map].
      rewrite option_map_app_nil. reflexivity. }
    rewrite Em.
    destruct (lex_dec_nonneg true (- z) c rest) as [-> _]; [lia|exact Hc|].
    unfold signed. now rewrite Z.opp_involutive.
  - apply Z.ltb_ge in E.
    now destruct (lex_dec_nonneg false z c rest E Hc) as [_ ->].
Qed.

End LexProps.

Section Base64Props.
Import Base64.

Lemma b64_val_char i : (0 <= i < 64)%Z -> b64_val (b64_char i) = Some i.
Proof.
  intros Hi.
  assert (exists n, (n < 64)%nat /\ i = Z.of_nat n) as (n & Hn & ->)
    by (exists (Z.to_nat i); lia).
  do 64 (destruct n as [|n]; [reflexivity|]). lia.
Qed.

Lemma b64_block a b c :
  (0 <= a < 256)%Z -> (0 <= b < 256)%Z -> (0 <= c < 256)%Z ->
  let w := (a / 4)%Z in
  let x := ((a mod 4) * 16 + b / 16)%Z in
  let y := ((b mod 16) * 4 + c / 64)%Z in
  let z := (c mod 64)%Z in
  ((0 <= w < 64) /\ (0 <= x < 64) /\ (0 <= y < 64) /\ (0 <= z < 64) /\
   w * 4 + x / 16 = a /\ (x mod 16) * 16 + y / 4 = b /\
   (y mod 4) * 64 + z = c)%Z.
Proof.
  intros Ha Hb Hc w x y z. subst w x y z.
  repeat split; Z.div_mod_to_equations; lia.
Qed.

Lemma list_ind3 {A} (P : list A -> Prop) :
  P [] -> (forall a, P [a]) -> (forall a b, P [a; b]) ->
  (forall a b c l, P l -> P (a :: b :: c :: l)) ->
  forall l, P l.
Proof.
  intros H0 H1 H2 H3. fix IH 1.
  intros [|a [|b [|c l]]]; [exact H0|apply H1|apply H2|apply H3, IH].
Qed.

(** Decoding what [b64encode] produced gives the bytes back. *)
Lemma b64decode_b64encode (l : text) :
  b64decode (b64encode l) = Some l.
Proof.
  induction l as [|a|a b|a b c l IH] using list_ind3.
  - reflexivity.
  - destruct (b64_block (code a) 0 0 (code_range a)) as (Hw & Hx & _ & _ & E & _);
      [lia|lia|].
    cbn [b64encode b64decode].
    rewrite Z.div_0_l, Z.add_0_r in Hx, E by lia.
    rewrite !b64_val_char by assumption.
    change (b64_val "=") with (@None Z). cbn.
    now rewrite E, chr_code.
  - destruct (b64_block (code a) (code b) 0 (code_range a) (code_range b))
      as (Hw & Hx & Hy & _ & E1 & E2 & _); [lia|].
    cbn [b64encode b64decode].
    rewrite Z.div_0_l, Z.add_0_r in Hy, E2 by lia.
    rewrite !b64_val_char by assumption.
    change (b64_val "=") with (@None Z). cbn.
    now rewrite E1, E2, !chr_code.
  - destruct (b64_block (code a) (code b) (code c)
                (code_range a) (code_range b) (code_range c))
      as (Hw & Hx & Hy & Hz & E1 & E2 & E3).
    cbn [b64encode b64decode].
    rewrite !b64_val_char by assumption.
    rewrite IH. cbn [option_map].
    now rewrite E1, E2, E3, !chr_code.
Qed.

End Base64Props.

Section StepProps.
Import Json.

Lemma option_map_app_app {A} (o : option (list A)) l1 l2 :
  option_map (app l1) (option_map (app l2) o) = option_map (app (l1 ++ l2)) o.
Proof. destruct o; cbn; [now rewrite app_assoc|reflexivity]. Qed.

Lemma emit_app t (o : option (list token)) out :
  option_map (app out) (emit t o) = option_map (app (out ++ [t])) o.
Proof.
  unfold emit. destruct o; cbn; [|reflexivity].
  now rewrite <- app_assoc.
Qed.

Lemma lex_step m c l ts m' :
  step m c = Some (ts, m') ->
  lex m (c :: l) = option_map (app ts) (lex m' l).
Proof.
  unfold step. cbn [lex].
  destruct (close_num m c) as [[out m1]|]; [|discriminate].
  destruct m1 as [|neg acc|acc|acc|acc k v].
  - repeat match goal with
           | |- context [if ?b then _ else _] => destruct b
           end;
      intros E; try discriminate E; injection E as <- <-;
      try apply emit_app; reflexivity.
  - destruct acc as [[|p|p]|]; intros E; try discriminate E;
      injection E as <- <-; reflexivity.
  - repeat match goal with
           | |- context [if ?b then _ else _] => destruct b
           end;
      intros E; try discriminate E; injection E as <- <-;
      try apply emit_app; reflexivity.
  - discriminate.
  - discriminate.
Qed.

Lemma lex_steps l : forall m ts m' rest,
  steps m l = Some (ts, m') ->
  lex m (l ++ rest) = option_map (app ts) (lex m' rest).
Proof.
  induction l as [|c l IH]; intros m ts m' rest; cbn [steps].
  - intros [= <- <-]. cbn [app]. now rewrite option_map_app_nil.
  - destruct (step m c) as [[ts1 m1]|] eqn:E1; [|discriminate].
    destruct (steps m1 l) as [[ts2 m2]|] eqn:E2; [|discriminate].
    intros [= <- <-].
    change ((c :: l) ++ rest) with (c :: (l ++ rest)).
    rewrite (lex_step _ _ _ _ _ E1), (IH _ _ _ rest E2).
    apply option_map_app_app.
Qed.

End StepProps.

Section PayloadText.
Import Json.

Lemma dumps_watch_payload c b u :
  dumps (watch_payload c b u)
  = watch_text (repr_int c) (repr_int b) (repr_int u).
Proof.
  unfold watch_payload, watch_text, seg_head, seg_broadcast, seg_user.
  cbn [dumps].
  generalize (repr_int c) (repr_int b) (repr_int u). intros rc rb ru.
  change (txt "}}]") with ["}"%char; "}"%char; "]"%char].
  repeat (progress (rewrite <- ?app_assoc, ?app_nil_r; cbn [app])).
  reflexivity.
Qed.

End PayloadText.

Section PayloadLex.
Import Json.

Lemma lex_steps_cons c l m ts m' rest :
  steps m (c :: l) = Some (ts, m') ->
  lex m (c :: l ++ rest) = option_map (app ts) (lex m' rest).
Proof. apply (lex_steps (c :: l)). Qed.

Lemma lex_watch_text c b u :
  lex Idle (watch_text (repr_int c) (repr_int b) (repr_int u))
  = Some [TLBrack; TLBrace; TStr "event"; TColon; TStr "minute-watched";
          TComma; TStr "properties"; TColon; TLBrace;
          TStr "channel_id"; TColon; TInt c; TComma;
          TStr "broadcast_id"; TColon; TInt b; TComma;
          TStr "player"; TColon; TStr "site"; TComma;
          TStr "user_id"; TColon; TInt u; TRBrace; TRBrace; TRBrack].
Proof.
  unfold watch_text.
  assert (H1 : steps Idle seg_head
               = Some ([TLBrack; TLBrace; TStr "event"; TColon;
                        TStr "minute-watched"; TComma; TStr "properties";
                        TColon; TLBrace; TStr "channel_id"; TColon], Idle))
    by (vm_compute; reflexivity).
  assert (H2 : steps Idle (","%char :: seg_broadcast)
               = Some ([TComma; TStr "broadcast_id"; TColon], Idle))
    by (vm_compute; reflexivity).
  assert (H3 : steps Idle (","%char :: seg_user)
               = Some ([TComma; TStr "player"; TColon; TStr "site"; TComma;
                        TStr "user_id"; TColon], Idle))
    by (vm_compute; reflexivity).
  assert (H4 : lex Idle (txt "}}]") = Some [TRBrace; TRBrace; TRBrack])
    by (vm_compute; reflexivity).
  rewrite (lex_steps _ _ _ _ _ H1).
  rewrite lex_repr_int by reflexivity.
  rewrite (lex_steps_cons _ _ _ _ _ _ H2).
  rewrite lex_repr_int by reflexivity.
  rewrite (lex_steps_cons _ _ _ _ _ _ H3).
  change (txt "}}]") with ("}"%char :: txt "}]").
  rewrite lex_repr_int by reflexivity.
  change ("}"%char :: txt "}]") with (txt "}}]"). rewrite H4.
  reflexivity.
Qed.

End PayloadLex.

Section PayloadProps.
Context `{Collab}.
Import Json.

Lemma no_whitespace_check l :
  forallb (fun c => negb (is_space c)) l = true -> no_whitespace l.
Proof.
  unfold no_whitespace. induction l as [|c l IH]; cbn [forallb]; intros E.
  - constructor.
  - apply andb_prop in E as [Hc Hl]. apply negb_true_iff in Hc.
    constructor; auto.
Qed.

Lemma repr_int_no_whitespace z : no_whitespace (repr_int z).
Proof.
  assert (Hdig : forall n, (0 <= n)%Z -> no_whitespace (dec_nonneg n)).
  { intros n Hn. destruct (dec_nonneg_spec n Hn) as (d & ds & -> & Hall & _).
    unfold no_whitespace. eapply Forall_impl; [exact Hall|].
    intros c Hc. apply is_digit_range in Hc. unfold is_space.
    apply orb_false_intro; [apply Z.eqb_neq; lia|].
    apply andb_false_intro2. apply Z.leb_gt. lia. }
  unfold repr_int. destruct (z <? 0)%Z eqn:E.
  - apply Z.ltb_lt in E. constructor; [reflexivity|]. apply Hdig. lia.
  - apply Z.ltb_ge in E. now apply Hdig.
Qed.

Lemma watch_text_no_whitespace c b u :
  no_whitespace (watch_text (repr_int c) (repr_int b) (repr_int u)).
Proof.
  unfold watch_text, no_whitespace.
  repeat first
    [ apply Forall_app; split
    | apply repr_int_no_whitespace
    | apply Forall_cons; split; [reflexivity|] ];
    apply no_whitespace_check; vm_compute; reflexivity.
Qed.

(** C7: for an online channel whose stream has the integer broadcast id
    [b], [_encode_payload] returns the one-key dict [{"data": e}] where [e]
    is the base64 of a JSON text without any white space that parses to
    the one-element list holding the "minute-watched" event with the
    channel id, [b], the player "site" and the user id. *)
Theorem encode_payload_decodes (ch : Channel) (st : Stream) (b : Z) :
  stream ch = Some st ->
  broadcast_id st = PInt b ->
  exists e json,
    _encode_payload ch = Ok (PDict [("data", PStr e)]) /\
    Base64.b64decode (txt e) = Some json /\
    loads json = Some (watch_payload (id ch) b (_user_id (_twitch ch))) /\
    no_whitespace json.
Proof.
  intros Hs Hb.
  exists (str (Base64.b64encode
                 (dumps (watch_payload (id ch) b (_user_id (_twitch ch)))))),
         (dumps (watch_payload (id ch) b (_user_id (_twitch ch)))).
  split; [|split; [|split]].
  - unfold _encode_payload. rewrite Hs, Hb. reflexivity.
  - unfold txt, str. rewrite list_ascii_of_string_of_list_ascii.
    apply b64decode_b64encode.
  - unfold loads. rewrite dumps_watch_payload, lex_watch_text. reflexivity.
  - rewrite dumps_watch_payload. apply watch_text_no_whitespace.
Qed.

End PayloadProps.

Section PayloadExamples.
#[local] Existing Instance Sample.collab.

Lemma encode_payload_decodes_witness :
  exists e json,
    _encode_payload Sample.online_channel = Ok (PDict [("data", PStr e)]) /\
    Base64.b64decode (txt e) = Some json /\
    Json.loads json = Some (watch_payload 123 456 789) /\
    no_whitespace json.
Proof.
  exact (encode_payload_decodes Sample.online_channel Sample.a_stream 456
           eq_refl eq_refl).
Defined.

(** The ping of the sample channel, as it goes over the wire and as the
    JSON text it encodes. *)
Example encode_payload_sample :
  _encode_payload Sample.online_channel
  = Ok (PDict [("data",
        PStr "W3siZXZlbnQiOiJtaW51dGUtd2F0Y2hlZCIsInByb3BlcnRpZXMiOnsiY2hhbm5lbF9pZCI6MTIzLCJicm9hZGNhc3RfaWQiOjQ1NiwicGxheWVyIjoic2l0ZSIsInVzZXJfaWQiOjc4OX19XQ==")])
  /\ Json.dumps (watch_payload 123 456 789)
     = "["%char :: "{"%char :: dq :: txt "event" ++ dq :: ":"%char :: dq
       :: txt "minute-watched" ++ dq :: ","%char :: dq :: txt "properties"
       ++ dq :: ":"%char :: "{"%char :: dq :: txt "channel_id" ++ dq
       :: txt ":123," ++ dq :: txt "broadcast_id" ++ dq :: txt ":456,"
       ++ dq :: txt "player" ++ dq :: ":"%char :: dq :: txt "site" ++ dq
       :: ","%char :: dq :: txt "user_id" ++ dq :: txt ":789}}]".
Proof. split; vm_compute; reflexivity. Qed.

(** With the string id a directory listing leaves behind (C6), the ping
    carries a string where the integer belongs. *)
Example encode_payload_string_id :
  exists s ch, Stream_from_directory Sample.entry 7 = Ok s /\
    ch = set_stream (Some s) Sample.online_channel /\
    exists e json,
      _encode_payload ch = Ok (PDict [("data", PStr e)]) /\
      Base64.b64decode (txt e) = Some json /\
      Json.loads json
      = Some (PList [PDict [("event", PStr "minute-watched");
                            ("properties",
                             PDict [("channel_id", PInt 123);
                                    ("broadcast_id", PStr "456");
                                    ("player", PStr "site");
                                    ("user_id", PInt 789)])]]).
Proof.
  eexists. eexists. split; [reflexivity|]. split; [reflexivity|].
  eexists. eexists. split; [reflexivity|]. split; vm_compute; reflexivity.
Qed.

End PayloadExamples.

(** * Further properties of the coroutines *)

Section FrameProps.
Context `{Collab}.

Lemma holds_cbind {A B} I (Q : Channel -> A -> Prop) (Q' : Channel -> B -> Prop)
    (c : coro A) (f : A -> M B) :
  holds I Q c ->
  (forall a s, I s -> Q s a -> holds I Q' (f a s)) ->
  holds I Q' (cbind c f).
Proof.
  intros Hc Hf. induction Hc; cbn [cbind]; try (constructor; auto); auto.
Qed.

Lemma holds_bind {A B} I (Q : Channel -> A -> Prop) (Q' : Channel -> B -> Prop)
    (m : M A) (f : A -> M B) s :
  holds I Q (m s) ->
  (forall a s', I s' -> Q s' a -> holds I Q' (f a s')) ->
  holds I Q' (bind m f s).
Proof. apply holds_cbind. Qed.

Lemma holds_run {A} I (Q : Channel -> A -> Prop) (c : coro A) now :
  holds I Q c -> forall os,
  I (state_of (snd (run c now os))) /\
  forall s a, snd (run c now os) = Returned s a -> Q s a.
Proof.
  induction 1 as [s a Hs Hq|s e Hs|k Hk IH|s ev k Hs Hk IH]; intros os;
    cbn [run].
  - cbn. split; [exact Hs|]. now intros s' a' [= <- <-].
  - cbn. split; [exact Hs|]. discriminate.
  - apply IH.
  - destruct os as [|o os]; [cbn; split; [exact Hs|discriminate]|].
    specialize (IH (o ev) s Hs os).
    destruct (run (k (o ev) s) now os) as [tr r]. exact IH.
Qed.

Lemma holds_lift {A} (I : Channel -> Prop) (r : result A) s :
  I s -> holds I (fun _ _ => True) (lift r s).
Proof. intros Hs. unfold lift. destruct r; now constructor. Qed.

Lemma holds_await_ev (I : Channel -> Prop) ev s :
  I s -> holds I (fun _ _ => True) (await ev s).
Proof.
  intros Hs. unfold await. constructor; [exact Hs|].
  intros [r|e] s' Hs'; now constructor.
Qed.

(** [get_stream] writes [id] and [stream] only, and what it returns is the
    [stream] it leaves. *)
Lemma get_stream_holds (I : Channel -> Prop) s :
  (forall z c, I c -> I (set_id z c)) ->
  (forall st c, I c -> I (set_stream st c)) ->
  I s -> holds I (fun s' r => r = stream s') (get_stream s).
Proof.
  intros Hid Hst Hs. unfold get_stream.
  apply holds_bind with (Q := fun _ _ => True); [now constructor|].
  intros self s1 H1 _.
  apply holds_bind with (Q := fun _ _ => True); [now apply holds_await_ev|].
  intros response s2 H2 _.
  apply holds_bind with (Q := fun _ _ => True).
  - destruct (py_truthy response); [|now constructor].
    apply holds_bind with (Q := fun _ _ => True); [now apply holds_lift|].
    intros stream_data s3 H3 _.
    apply holds_bind with (Q := fun _ _ => True); [now apply holds_lift|].
    intros cid s4 H4 _.
    apply holds_bind with (Q := fun _ _ => True); [constructor; auto|].
    intros _ s5 H5 _.
    apply holds_bind with (Q := fun _ _ => True); [now apply holds_lift|].
    intros live s6 H6 _.
    destruct (py_truthy live); [|constructor; auto].
    apply holds_bind with (Q := fun _ _ => True).
    { unfold clock. constructor. intros t. now constructor. }
    intros now s7 H7 _.
    apply holds_bind with (Q := fun _ _ => True); [now apply holds_lift|].
    intros st s8 H8 _. constructor; auto.
  - intros _ s3 H3 _.
    apply holds_bind with (Q := fun s' a => a = s'); [now constructor|].
    intros self' s4 H4 ->. now constructor.
Qed.

(** A coroutine followed by code that does not wait. *)
Lemma run_cbind_pure {A B} (c : coro A) (f : A -> M B) (g : A -> Channel -> B) now :
  (forall a s, f a s = Done s (g a s)) ->
  forall os,
  run (cbind c f) now os =
  match run c now os with
  | (tr, Returned s a) => (tr, Returned s (g a s))
  | (tr, Raised s e) => (tr, Raised s e)
  | (tr, Blocked s ev) => (tr, Blocked s ev)
  end.
Proof.
  intros Hf. induction c as [s a|s e|k IH|s ev k IH]; intros os;
    cbn [cbind run].
  - now rewrite Hf.
  - reflexivity.
  - apply IH.
  - destruct os as [|o os]; [reflexivity|].
    rewrite IH. destruct (run (k (o ev) s) now os) as [tr [s' a|s' e|s' ev']];
      reflexivity.
Qed.

(** X1: whatever the outside world answers, [get_stream] changes no field
    of the channel but [id] and [stream]: client, name, URL, cached
    endpoint and task reference are as before, also when it raises. *)
Theorem get_stream_frame (ch : Channel) (now : Z) (os : list oracle) :
  same_but_id_stream ch (state_of (snd (run (get_stream ch) now os))).
Proof.
  apply (holds_run (same_but_id_stream ch) (fun s' r => r = stream s')
           (get_stream ch) now).
  apply get_stream_holds.
  - intros z c Hc. exact Hc.
  - intros st c Hc. exact Hc.
  - repeat split.
Qed.

(** X2: [check_online] waits for and raises what [get_stream] does, leaves
    the channel as [get_stream] leaves it, and when that returns it
    answers whether the channel is then online. *)
Theorem check_online_after_refresh (ch : Channel) (now : Z) (os : list oracle) :
  run (check_online ch) now os =
  match run (get_stream ch) now os with
  | (tr, Returned ch' _) => (tr, Returned ch' (online ch'))
  | (tr, Raised ch' e) => (tr, Raised ch' e)
  | (tr, Blocked ch' ev) => (tr, Blocked ch' ev)
  end.
Proof.
  unfold check_online, bind.
  rewrite (run_cbind_pure (get_stream ch) _
             (fun st _ => match st with None => false | Some _ => true end)).
  2:{ intros [st|] s; reflexivity. }
  destruct (holds_run (fun _ => True) (fun s' r => r = stream s')
              (get_stream ch) now
              (get_stream_holds (fun _ => True) ch
                 (fun _ _ _ => I) (fun _ _ _ => I) I) os) as [_ Hret].
  destruct (run (get_stream ch) now os) as [tr [s a|s e|s ev]]; try reflexivity.
  cbn in Hret. rewrite (Hret s a eq_refl). reflexivity.
Qed.

End FrameProps.

Section ReconcileEdges.
Context `{Collab}.

(** X3: a truthy response whose user record carries the id [z] and a
    truthy [stream] from which no Stream can be built makes [get_stream]
    raise what the construction raised, after [id] was overwritten: the
    channel keeps its old [stream] beside the new [id]. *)
Theorem get_stream_bad_stream (ch : Channel) (now : Z) (o : oracle)
    (resp sd live : pyval) (z : Z) (e : exn) :
  o (stream_query ch) = Ok resp ->
  py_truthy resp = true ->
  user_record resp = Ok sd ->
  (let* i := py_getitem sd "id" in py_int i) = Ok z ->
  py_getitem sd "stream" = Ok live ->
  py_truthy live = true ->
  Stream_init sd now = Raise e ->
  run (get_stream ch) now [o] = ([stream_query ch], Raised (set_id z ch) e) /\
  stream (set_id z ch) = stream ch.
Proof.
  intros Ho Ht Hu Hz Hl Hlive Hst. unfold user_record in Hu.
  split; [|reflexivity].
  unfold get_stream, stream_query in *. mstep. rewrite Ho. mstep.
  rewrite Ht. mstep. rewrite Hu. mstep. rewrite Hz. mstep. rewrite Hl. mstep.
  rewrite Hlive. mstep. rewrite Hst. reflexivity.
Qed.

(** X4: a truthy response without a usable user record (no "data", no
    "user", or a user that is null, as for a name nobody has) makes
    [get_stream] raise, with the channel untouched; for a null user the
    exception is a [TypeError]. *)
Theorem get_stream_no_user (ch : Channel) (now : Z) (o : oracle)
    (resp : pyval) :
  o (stream_query ch) = Ok resp ->
  py_truthy resp = true ->
  (forall e, user_record resp = Raise e ->
     run (get_stream ch) now [o] = ([stream_query ch], Raised ch e)) /\
  (user_record resp = Ok PNone ->
     run (get_stream ch) now [o] = ([stream_query ch], Raised ch TypeError)).
Proof.
  intros Ho Ht. unfold user_record.
  split; intros; unfold get_stream, stream_query in *; mstep; rewrite Ho;
    mstep; rewrite Ht; mstep.
  - intros. rewrite H0. reflexivity.
  - rewrite H0. reflexivity.
Qed.

(** X5: when the executor itself raises, [get_stream] raises the same
    exception and the channel is untouched. *)
Theorem get_stream_query_fails (ch : Channel) (now : Z) (o : oracle) (e : exn) :
  o (stream_query ch) = Raise e ->
  run (get_stream ch) now [o] = ([stream_query ch], Raised ch e).
Proof.
  intros Ho. unfold get_stream, stream_query in *. mstep. rewrite Ho.
  reflexivity.
Qed.

End ReconcileEdges.

Section ReconcileEdgeExamples.
#[local] Existing Instance Sample.collab.

Lemma get_stream_bad_stream_witness :
  run (get_stream Sample.offline_channel) 7
      [Sample.world (Ok (Sample.response Sample.broken_user)) ""]
  = ([stream_query Sample.offline_channel],
     Raised (set_id 123 Sample.offline_channel) (KeyError "viewersCount")).
Proof.
  apply (get_stream_bad_stream Sample.offline_channel 7
           (Sample.world (Ok (Sample.response Sample.broken_user)) "")
           (Sample.response Sample.broken_user) Sample.broken_user
           (PDict [("id", PStr "456")]) 123 (KeyError "viewersCount")
           eq_refl eq_refl eq_refl eq_refl eq_refl eq_refl eq_refl).
Defined.

Lemma get_stream_no_user_witness :
  run (get_stream Sample.online_channel) 7
      [Sample.world (Ok (Sample.response PNone)) ""]
  = ([stream_query Sample.online_channel],
     Raised Sample.online_channel TypeError).
Proof.
  apply (get_stream_no_user Sample.online_channel 7
           (Sample.world (Ok (Sample.response PNone)) "")
           (Sample.response PNone) eq_refl eq_refl).
  reflexivity.
Defined.

Lemma get_stream_query_fails_witness :
  run (get_stream Sample.online_channel) 7 [Sample.broken]
  = ([stream_query Sample.online_channel],
     Raised Sample.online_channel (TransportError "gql")).
Proof.
  apply (get_stream_query_fails Sample.online_channel 7 Sample.broken
           (TransportError "gql")).
  reflexivity.
Defined.

End ReconcileEdgeExamples.

Section DiscoveryFrame.
Context `{Collab}.

(** A coroutine followed by more code: what follows runs on the replies
    the coroutine has left. *)
Lemma run_cbind {A B} (c : coro A) (f : A -> M B) now : forall os,
  run (cbind c f) now os =
  match run c now os with
  | (tr, Returned s a) =>
      let (tr', r) := run (f a s) now (skipn (length tr) os) in (tr ++ tr', r)
  | (tr, Raised s e) => (tr, Raised s e)
  | (tr, Blocked s ev) => (tr, Blocked s ev)
  end.
Proof.
  induction c as [s a|s e|k IH|s ev k IH]; intros os; cbn [cbind run].
  - cbn [length]. rewrite skipn_O. destruct (run (f a s) now os); reflexivity.
  - reflexivity.
  - apply IH.
  - destruct os as [|o os]; [reflexivity|].
    rewrite IH. destruct (run (k (o ev) s) now os) as [tr [s' a|s' e|s' ev']];
      try reflexivity.
    change (skipn (length (ev :: tr)) (o :: os)) with (skipn (length tr) os).
    destruct (run (f a s') now (skipn (length tr) os)); reflexivity.
Qed.

(** Where the requests of [get_spade_url] go, where its answer comes
    from, and what it leaves: the groups of the two searches, and the
    channel as it was. *)
Lemma get_spade_url_cases (ch : Channel) (now : Z) (os : list oracle) :
  Forall (fun ev => ev = HttpGetText (url ch) \/
            exists html m u1,
              Re.search true Re.settings_pattern (txt html) = Some m /\
              Re.group m 1 = Ok u1 /\ ev = HttpGetText u1)
         (fst (run (get_spade_url ch) now os)) /\
  (forall s u, snd (run (get_spade_url ch) now os) = Returned s u ->
     exists js m', Re.search true Re.spade_pattern (txt js) = Some m' /\
                   Re.group m' 1 = Ok u) /\
  state_of (snd (run (get_spade_url ch) now os)) = ch.
Proof.
  unfold get_spade_url. mstep.
  destruct os as [|o1 os];
    [solve [cbn; split; [fetched|split; [discriminate|reflexivity]]]|].
  destruct (o1 (HttpGetText (url ch))) as [html|e]; mstep;
    [|solve [cbn; split; [fetched|split; [discriminate|reflexivity]]]].
  destruct (Re.search true Re.settings_pattern (txt html)) as [m|] eqn:E1; mstep;
    [|solve [cbn; split; [fetched|split; [discriminate|reflexivity]]]].
  destruct (Re.group m 1) as [u1|e] eqn:G1; mstep;
    [|solve [cbn; split; [fetched|split; [discriminate|reflexivity]]]].
  assert (Hsnd : exists html m u0,
            Re.search true Re.settings_pattern (txt html) = Some m /\
            Re.group m 1 = Ok u0 /\ HttpGetText u1 = HttpGetText u0)
    by (exists html, m, u1; auto).
  destruct os as [|o2 os];
    [solve [cbn; split; [fetched|split; [discriminate|reflexivity]]]|].
  destruct (o2 (HttpGetText u1)) as [js|e]; mstep;
    [|solve [cbn; split; [fetched|split; [discriminate|reflexivity]]]].
  destruct (Re.search true Re.spade_pattern (txt js)) as [m'|] eqn:E2; mstep;
    [|solve [cbn; split; [fetched|split; [discriminate|reflexivity]]]].
  destruct (Re.group m' 1) as [u2|e] eqn:G2; mstep;
    [|solve [cbn; split; [fetched|split; [discriminate|reflexivity]]]].
  cbn. split; [fetched|]. split; [|reflexivity].
  intros s u [= _ <-]. exists js, m'. auto.
Qed.

Lemma get_spade_url_state (ch : Channel) now os tr r :
  run (get_spade_url ch) now os = (tr, r) -> state_of r = ch.
Proof.
  intros E. destruct (get_spade_url_cases ch now os) as (_ & _ & Hs).
  now rewrite E in Hs.
Qed.

Lemma get_spade_url_fetches (ch : Channel) now os tr r :
  run (get_spade_url ch) now os = (tr, r) -> Forall is_fetch tr.
Proof.
  intros E. destruct (get_spade_url_cases ch now os) as (Hf & _ & _).
  rewrite E in Hf. eapply Forall_impl; [exact Hf|]. cbn beta.
  intros ev [->|(html & m & u1 & _ & _ & ->)]; exact I.
Qed.

(** X6: [get_spade_url] never writes to the channel, whatever is served
    and however it ends; all it asks for are pages, two at most, the first
    being the channel's own URL. *)
Theorem get_spade_url_reads_only (ch : Channel) (now : Z) (os : list oracle) :
  state_of (snd (run (get_spade_url ch) now os)) = ch /\
  Forall is_fetch (fst (run (get_spade_url ch) now os)) /\
  length (fst (run (get_spade_url ch) now os)) <= 2 /\
  hd_error (fst (run (get_spade_url ch) now os)) = Some (HttpGetText (url ch)).
Proof.
  unfold get_spade_url. mstep.
  destruct os as [|o1 os];
    [solve [cbn; repeat split; auto; repeat constructor]|].
  destruct (o1 (HttpGetText (url ch))) as [html|e]; mstep;
    [|solve [cbn; repeat split; auto; repeat constructor]].
  destruct (Re.search true Re.settings_pattern (txt html)) as [m|]; mstep;
    [|solve [cbn; repeat split; auto; repeat constructor]].
  destruct (Re.group m 1) as [u1|e]; mstep;
    [|solve [cbn; repeat split; auto; repeat constructor]].
  destruct os as [|o2 os];
    [solve [cbn; repeat split; auto; repeat constructor]|].
  destruct (o2 (HttpGetText u1)) as [js|e]; mstep;
    [|solve [cbn; repeat split; auto; repeat constructor]].
  destruct (Re.search true Re.spade_pattern (txt js)) as [m'|]; mstep;
    [|solve [cbn; repeat split; auto; repeat constructor]].
  destruct (Re.group m' 1) as [u2|e]; mstep;
    solve [cbn; repeat split; auto; repeat constructor].
Qed.

End DiscoveryFrame.

Section WatchProps.
Context `{Collab}.

(** X7: on an online channel with a cached endpoint, [_send_watch] does
    one thing, the POST of the encoded payload to the cached URL: it
    returns whether the status was 204, raises what the POST raises, and
    in either case leaves the channel as it was. *)
Theorem send_watch_cached (ch : Channel) (st : Stream) (u : string)
    (now : Z) (o : oracle) :
  stream ch = Some st ->
  _spade_url ch = Some u ->
  exists data,
    _encode_payload ch = Ok data /\
    run (_send_watch ch) now [o]
    = ([HttpPost u data],
       match o (HttpPost u data) with
       | Ok status => Returned ch (PBool (Z.eqb status 204))
       | Raise e => Raised ch e
       end).
Proof.
  intros Hs Hu.
  assert (Hd : exists data, _encode_payload ch = Ok data).
  { unfold _encode_payload. rewrite Hs. eauto. }
  destruct Hd as [data Hd]. exists data. split; [exact Hd|].
  unfold _send_watch, online. mstep. rewrite Hs, Hu. cbn [negb]. mstep.
  rewrite Hd. mstep.
  destruct (o (HttpPost u data)); reflexivity.
Qed.

(** X8: on an online channel without a cached endpoint, when the
    discovery returns [u], [_send_watch] caches [u] and then posts the
    encoded payload to it; the answer is whether the status was 204, and
    the URL stays cached also when the POST raises. *)
Theorem send_watch_discovers (ch : Channel) (st : Stream) (now : Z)
    (os : list oracle) (tr : list event) (ch' : Channel) (u : string)
    (o : oracle) (rest : list oracle) :
  stream ch = Some st ->
  _spade_url ch = None ->
  run (get_spade_url ch) now os = (tr, Returned ch' u) ->
  skipn (length tr) os = o :: rest ->
  exists data,
    _encode_payload ch = Ok data /\
    run (_send_watch ch) now os
    = (tr ++ [HttpPost u data],
       match o (HttpPost u data) with
       | Ok status =>
           Returned (set_spade_url (Some u) ch) (PBool (Z.eqb status 204))
       | Raise e => Raised (set_spade_url (Some u) ch) e
       end).
Proof.
  intros Hs Hu Hrun Hrest.
  assert (ch' = ch) as -> by exact (get_spade_url_state ch now os tr _ Hrun).
  assert (Hd : exists data, _encode_payload ch = Ok data).
  { unfold _encode_payload. rewrite Hs. eauto. }
  destruct Hd as [data Hd]. exists data. split; [exact Hd|].
  assert (Hd' : _encode_payload (set_spade_url (Some u) ch) = Ok data).
  { rewrite <- Hd. reflexivity. }
  unfold _send_watch, online. unfold bind at 1, get_self at 1. cbn [cbind].
  rewrite Hs, Hu. cbn [negb]. unfold bind at 1. rewrite run_cbind.
  unfold bind at 1. rewrite run_cbind. rewrite Hrun.
  mstep. rewrite Hd'. mstep. rewrite app_nil_r, Hrest.
  destruct (o (HttpPost u data)); reflexivity.
Qed.

(** X9: when the discovery raises (an extraction error, or a fetch that
    fails), [_send_watch] raises the same, having cached nothing and
    posted nothing. *)
Theorem send_watch_discovery_fails (ch : Channel) (st : Stream) (now : Z)
    (os : list oracle) (tr : list event) (ch' : Channel) (e : exn) :
  stream ch = Some st ->
  _spade_url ch = None ->
  run (get_spade_url ch) now os = (tr, Raised ch' e) ->
  run (_send_watch ch) now os = (tr, Raised ch e) /\ Forall is_fetch tr.
Proof.
  intros Hs Hu Hrun.
  assert (ch' = ch) as -> by exact (get_spade_url_state ch now os tr _ Hrun).
  split.
  - unfold _send_watch, online. unfold bind at 1, get_self at 1. cbn [cbind].
    rewrite Hs, Hu. cbn [negb]. unfold bind at 1. rewrite run_cbind.
    unfold bind at 1. rewrite run_cbind. rewrite Hrun. reflexivity.
  - exact (get_spade_url_fetches ch now os tr _ Hrun).
Qed.

End WatchProps.

Section WatchRace.
Context `{Collab}.

(** X10: the online test of [_send_watch] comes before the discovery and
    is not repeated after it.  If the channel loses its stream while the
    discovery waits for its pages, [_send_watch] still caches the URL it
    found, and then fails on the assertion of [_encode_payload], without
    posting anything. *)
Theorem send_watch_stream_lost (ch : Channel) (st : Stream) (now : Z)
    (o1 o2 : oracle) (f1 f2 : Channel -> Channel)
    (html js : string) (u1 u2 : text) :
  stream ch = Some st ->
  _spade_url ch = None ->
  o1 (HttpGetText (url ch)) = Ok html ->
  Re.search true Re.settings_pattern (txt html) = Some [u1] ->
  o2 (HttpGetText (str u1)) = Ok js ->
  Re.search true Re.spade_pattern (txt js) = Some [u2] ->
  stream (f2 (f1 ch)) = None ->
  run_with (_send_watch ch) now [(o1, f1); (o2, f2)]
  = ([HttpGetText (url ch); HttpGetText (str u1)],
     Raised (set_spade_url (Some (str u2)) (f2 (f1 ch))) AssertionError).
Proof.
  intros Hs Hu Ho1 Hm1 Ho2 Hm2 Hlost.
  unfold _send_watch, online, get_spade_url.
  unfold bind, lift, modify, ret, raise, get_self, await.
  cbn [cbind]. rewrite Hs, Hu. cbn [negb cbind run_with].
  rewrite Ho1. cbn [cbind]. rewrite Hm1.
  cbn [Re.group nth_error Nat.sub cbind run_with].
  rewrite Ho2. cbn [cbind]. rewrite Hm2.
  cbn [Re.group nth_error Nat.sub cbind run_with].
  unfold _encode_payload. cbn [stream set_spade_url]. rewrite Hlost.
  reflexivity.
Qed.

End WatchRace.

Section WatchExamples.
#[local] Existing Instance Sample.collab.

Lemma send_watch_cached_witness :
  exists data,
    _encode_payload (set_spade_url (Some Sample.spade) Sample.online_channel)
    = Ok data /\
    run (_send_watch (set_spade_url (Some Sample.spade) Sample.online_channel))
        0 [Sample.calm]
    = ([HttpPost Sample.spade data],
       Returned (set_spade_url (Some Sample.spade) Sample.online_channel)
                (PBool true)).
Proof.
  exact (send_watch_cached
           (set_spade_url (Some Sample.spade) Sample.online_channel)
           Sample.a_stream Sample.spade 0 Sample.calm eq_refl eq_refl).
Defined.

Lemma send_watch_discovers_witness :
  exists data,
    _encode_payload Sample.online_channel = Ok data /\
    run (_send_watch Sample.online_channel) 0
        [Sample.world (Ok PNone) Sample.page;
         Sample.world (Ok PNone) Sample.script; Sample.calm]
    = ([HttpGetText "https://www.twitch.tv/someone";
        HttpGetText Sample.settings_js_url; HttpPost Sample.spade data],
       Returned (set_spade_url (Some Sample.spade) Sample.online_channel)
                (PBool true)).
Proof.
  exact (send_watch_discovers Sample.online_channel Sample.a_stream 0
           [Sample.world (Ok PNone) Sample.page;
            Sample.world (Ok PNone) Sample.script; Sample.calm]
           [HttpGetText "https://www.twitch.tv/someone";
            HttpGetText Sample.settings_js_url]
           Sample.online_channel Sample.spade Sample.calm []
           eq_refl eq_refl eq_refl eq_refl).
Defined.

Lemma send_watch_discovery_fails_witness :
  run (_send_watch Sample.online_channel) 0
      [Sample.world (Ok PNone) "<html></html>"; Sample.calm]
  = ([HttpGetText "https://www.twitch.tv/someone"],
     Raised Sample.online_channel step1_error)
  /\ Forall is_fetch [HttpGetText "https://www.twitch.tv/someone"].
Proof.
  exact (send_watch_discovery_fails Sample.online_channel Sample.a_stream 0
           [Sample.world (Ok PNone) "<html></html>"; Sample.calm]
           [HttpGetText "https://www.twitch.tv/someone"]
           Sample.online_channel step1_error eq_refl eq_refl eq_refl).
Defined.

Lemma send_watch_stream_lost_witness :
  run_with (_send_watch Sample.online_channel) 0
      [(Sample.world (Ok PNone) Sample.page, fun c => c);
       (Sample.world (Ok PNone) Sample.script, set_stream None)]
  = ([HttpGetText "https://www.twitch.tv/someone";
      HttpGetText Sample.settings_js_url],
     Raised (set_spade_url (Some Sample.spade)
               (set_stream None Sample.online_channel)) AssertionError).
Proof.
  exact (send_watch_stream_lost Sample.online_channel Sample.a_stream 0
           (Sample.world (Ok PNone) Sample.page)
           (Sample.world (Ok PNone) Sample.script)
           (fun c => c) (set_stream None) Sample.page Sample.script
           (txt Sample.settings_js_url) (txt Sample.spade)
           eq_refl eq_refl eq_refl eq_refl eq_refl eq_refl eq_refl).
Defined.

End WatchExamples.

Section ConstructionProps.
Context `{Collab}.

(** X11: a channel made from a name is handed out only after its first
    [get_stream] has returned, for which exactly one query, for that name,
    was made; it then carries the given client and name, the URL
    [BASE_URL/name], no cached endpoint and no pending task. *)
Theorem Channel_new_postcondition (twitch : Twitch) (channel_name : string)
    (now : Z) (os : list oracle) (tr : list event) (s c : Channel) :
  run (Channel_new twitch channel_name) now os = (tr, Returned s c) ->
  c = s /\
  tr = [GqlRequest "GetStreamInfo" (PDict [("channel", PStr channel_name)])] /\
  _twitch c = twitch /\ name c = channel_name /\
  url c = String.append BASE_URL (String.append "/" channel_name) /\
  _spade_url c = None /\ _pending_stream_up c = None.
Proof.
  unfold Channel_new.
  set (c0 := {| _twitch := twitch; id := 0; name := channel_name;
                url := String.append BASE_URL (String.append "/" channel_name);
                _spade_url := None; stream := None;
                _pending_stream_up := None |}).
  rewrite (run_cbind_pure (get_stream c0) _ (fun _ s => s))
    by (intros; reflexivity).
  assert (Hf : same_but_id_stream c0
                 (state_of (snd (run (get_stream c0) now os)))).
  { apply (holds_run (same_but_id_stream c0) (fun s' r => r = stream s')
             (get_stream c0) now).
    apply get_stream_holds;
      [intros z c' Hc; exact Hc|intros st c' Hc; exact Hc|repeat split]. }
  assert (Htr : forall tr' r, run (get_stream c0) now os = (tr', r) ->
            (exists s' a, r = Returned s' a) -> tr' = [stream_query c0]).
  { intros tr' r. unfold get_stream. mstep.
    destruct os as [|o os']; [intros [= <- <-] (s' & a & E); discriminate|].
    destruct (o _) as [resp|e]; mstep;
      [|intros [= <- <-] (s' & a & E); discriminate].
    destruct (py_truthy resp); mstep; [|now intros [= <- <-] _].
    destruct (let* d := py_getitem resp "data" in py_getitem d "user")
      as [sd|e]; mstep; [|intros [= <- <-] (s' & a & E); discriminate].
    destruct (let* i := py_getitem sd "id" in py_int i) as [z|e]; mstep;
      [|intros [= <- <-] (s' & a & E); discriminate].
    destruct (py_getitem sd "stream") as [live|e]; mstep;
      [|intros [= <- <-] (s' & a & E); discriminate].
    destruct (py_truthy live); mstep; [|now intros [= <- <-] _].
    destruct (Stream_init sd now) as [st|e]; mstep;
      [now intros [= <- <-] _|intros [= <- <-] (s' & a & E); discriminate]. }
  destruct (run (get_stream c0) now os) as [tr' [s' a|s' e|s' ev]] eqn:E;
    intros [= <- <- <-].
  cbn [snd state_of] in Hf. destruct Hf as (H1 & H2 & H3 & H4 & H5).
  split; [reflexivity|].
  split; [apply (Htr _ _ eq_refl); eauto|]. auto.
Qed.

(** X12: [__eq__] and [__hash__] look at [id] alone, and [id] is filled by
    [get_stream] only: two channels made from any two names whose first
    query was answered with a falsy response both keep the temporary id 0,
    so they compare equal and hash alike, whatever hash function is used. *)
Theorem unreconciled_channels_collide (t1 t2 : Twitch) (n1 n2 : string)
    (now : Z) (o1 o2 : oracle) (r1 r2 : pyval) :
  o1 (GqlRequest "GetStreamInfo" (PDict [("channel", PStr n1)])) = Ok r1 ->
  o2 (GqlRequest "GetStreamInfo" (PDict [("channel", PStr n2)])) = Ok r2 ->
  py_truthy r1 = false -> py_truthy r2 = false ->
  exists c1 c2 tr1 tr2,
    run (Channel_new t1 n1) now [o1] = (tr1, Returned c1 c1) /\
    run (Channel_new t2 n2) now [o2] = (tr2, Returned c2 c2) /\
    name c1 = n1 /\ name c2 = n2 /\
    Channel_eq c1 (inl c2) = Some true /\
    forall h, Channel_hash h c1 = Channel_hash h c2.
Proof.
  intros Ho1 Ho2 Hf1 Hf2. unfold Channel_new, get_stream. mstep.
  cbn [name]. rewrite Ho1, Ho2. mstep. rewrite Hf1, Hf2. mstep.
  do 4 eexists. split; [reflexivity|]. split; [reflexivity|].
  repeat split.
Qed.

Lemma Channel_eq_hash (a b : Channel) :
  Channel_eq a (inl b) = Some true ->
  forall h, Channel_hash h a = Channel_hash h b.
Proof.
  cbn. intros [= E] h. apply Z.eqb_eq in E. unfold Channel_hash. now rewrite E.
Qed.

End ConstructionProps.

Section ConstructionExamples.
#[local] Existing Instance Sample.collab.

Lemma Channel_new_postcondition_witness :
  exists c tr,
    run (Channel_new Sample.twitch "someone") 7 [Sample.calm] = (tr, Returned c c) /\
    _twitch c = Sample.twitch /\ name c = "someone" /\
    url c = "https://www.twitch.tv/someone" /\
    _spade_url c = None /\ _pending_stream_up c = None.
Proof.
  assert (E : exists c tr,
            run (Channel_new Sample.twitch "someone") 7 [Sample.calm]
            = (tr, Returned c c)) by (eexists; eexists; reflexivity).
  destruct E as (c & tr & E). exists c, tr. split; [exact E|].
  destruct (Channel_new_postcondition Sample.twitch "someone" 7 [Sample.calm]
              tr c c E) as (_ & _ & H1 & H2 & H3 & H4 & H5).
  repeat split; assumption.
Defined.

Lemma unreconciled_channels_collide_witness :
  exists c1 c2 tr1 tr2,
    run (Channel_new Sample.twitch "alice") 0 [Sample.world (Ok PNone) ""]
    = (tr1, Returned c1 c1) /\
    run (Channel_new Sample.twitch "bob") 0 [Sample.world (Ok PNone) ""]
    = (tr2, Returned c2 c2) /\
    name c1 = "alice" /\ name c2 = "bob" /\
    Channel_eq c1 (inl c2) = Some true /\
    forall h, Channel_hash h c1 = Channel_hash h c2.
Proof.
  exact (unreconciled_channels_collide Sample.twitch Sample.twitch
           "alice" "bob" 0 (Sample.world (Ok PNone) "")
           (Sample.world (Ok PNone) "") PNone PNone
           eq_refl eq_refl eq_refl eq_refl).
Defined.

End ConstructionExamples.

Section SignalProps.
Context `{Collab}.

(** X13: [set_offline] twice is [set_offline] once. *)
Theorem set_offline_idempotent (w : Loop) :
  set_offline (set_offline w) = set_offline w.
Proof.
  unfold set_offline at 1.
  assert (Hp : _pending_stream_up (chan (set_offline w)) = None).
  { unfold set_offline.
    destruct (_pending_stream_up (chan w)) eqn:E; cbn; auto. }
  rewrite Hp.
  destruct (set_offline w) as [c ts] eqn:E. cbn [chan tasks] in *.
  f_equal.
  assert (Hs : stream c = None).
  { change c with (chan {| chan := c; tasks := ts |}). rewrite <- E.
    reflexivity. }
  destruct c as [tw i n u sp st p]. cbn in Hs. subst st. reflexivity.
Qed.

(** X14: after [set_offline], [set_online] always schedules a fresh
    confirmation task, whatever state the channel was in before (online,
    pending, or with a confirmation that had ended in an error): the loop
    gets exactly one more task, not yet started, and the channel refers
    to it. *)
Theorem set_online_after_set_offline (w : Loop) :
  let w1 := set_offline w in
  let w2 := set_online w1 in
  length (tasks w1) = length (tasks w) /\
  tasks w2 = tasks w1 ++ [Pending false (NotStarted _online_delay)] /\
  _pending_stream_up (chan w2) = Some (length (tasks w)) /\
  pending_online (chan w2) = true /\ online (chan w2) = false.
Proof.
  cbv zeta. remember (set_offline w) as w1 eqn:E1.
  assert (Hl : length (tasks w1) = length (tasks w)).
  { rewrite E1. unfold set_offline, cancel.
    destruct (_pending_stream_up (chan w)) as [t|]; [|reflexivity].
    destruct (tasks w !! t) as [[mc b|r]|]; cbn [tasks]; try reflexivity.
    apply length_insert. }
  assert (Hp : _pending_stream_up (chan w1) = None).
  { rewrite E1. unfold set_offline.
    destruct (_pending_stream_up (chan w)) eqn:E; cbn; auto. }
  assert (Hs : stream (chan w1) = None) by (rewrite E1; reflexivity).
  clear E1. unfold set_online, online, pending_online.
  rewrite Hs, Hp. cbn. rewrite Hl, ?Hs. auto.
Qed.

(** X15: at any moment at most one confirmation is in flight: in every
    state the loop can reach, a task that is neither done nor asked to
    cancel is the one the channel refers to, so the channel is pending and
    there is no second such task. *)
Theorem live_task_is_referenced (w : Loop) (i : nat) (b : body) :
  reachable w ->
  tasks w !! i = Some (Pending false b) ->
  _pending_stream_up (chan w) = Some i /\
  pending_online (chan w) = true /\
  forall j b', tasks w !! j = Some (Pending false b') -> j = i.
Proof.
  intros Hr Hi. pose proof (reachable_ok w Hr) as Hw.
  assert (Href : forall j b', tasks w !! j = Some (Pending false b') ->
            _pending_stream_up (chan w) = Some j).
  { intros j b' Hj. destruct (Hw _ _ Hj) as [_ [|E]]; [discriminate|exact E]. }
  pose proof (Href _ _ Hi) as E.
  split; [exact E|]. split; [unfold pending_online; now rewrite E|].
  intros j b' Hj. specialize (Href _ _ Hj). congruence.
Qed.

(** X16: a channel that is not pending has no confirmation in flight: in
    every reachable state with [pending_online] false, no resumption of
    any task changes the channel. *)
Theorem idle_channel_is_left_alone (w : Loop) (t : nat) (o : oracle) (now : Z) :
  reachable w ->
  pending_online (chan w) = false ->
  chan (resume t o now w) = chan w.
Proof.
  intros Hr Hp. pose proof (reachable_ok w Hr) as Hw.
  apply resume_all_cancelled; [exact Hw|].
  intros i mc b Hi. destruct (Hw _ _ Hi) as [_ [E|E]]; [exact E|].
  unfold pending_online in Hp. rewrite E in Hp. discriminate.
Qed.

End SignalProps.

Section SignalExamples.
#[local] Existing Instance Sample.collab.

Lemma live_task_is_referenced_witness :
  reachable Sample.waiting_loop /\
  _pending_stream_up (chan Sample.waiting_loop) = Some 0 /\
  pending_online (chan Sample.waiting_loop) = true.
Proof.
  assert (Hr : reachable Sample.waiting_loop).
  { exists Sample.offline_channel, [SetOnline; Resume 0 Sample.calm 0].
    reflexivity. }
  assert (E : exists b, tasks Sample.waiting_loop !! 0 = Some (Pending false b))
    by (eexists; reflexivity).
  destruct E as [b E].
  destruct (live_task_is_referenced Sample.waiting_loop 0 b Hr E) as (H1 & H2 & _).
  auto.
Defined.

Lemma idle_channel_is_left_alone_witness :
  reachable Sample.cancelled_loop /\
  chan (resume 0 Sample.calm 5 Sample.cancelled_loop)
  = chan Sample.cancelled_loop.
Proof.
  assert (Hr : reachable Sample.cancelled_loop).
  { exists Sample.offline_channel,
      [SetOnline; Resume 0 Sample.calm 0; SetOffline].
    reflexivity. }
  split; [exact Hr|].
  exact (idle_channel_is_left_alone Sample.cancelled_loop 0 Sample.calm 5
           Hr eq_refl).
Defined.

End SignalExamples.

(** * Further properties of the Stream constructors *)

Section IntProps.

Lemma lstrip_blank ws l : blank ws -> lstrip (ws ++ l) = lstrip l.
Proof.
  induction 1 as [|c ws Hc _ IH]; cbn [app lstrip]; [reflexivity|].
  now rewrite Hc.
Qed.

Lemma lstrip_no_whitespace l : no_whitespace l -> lstrip l = l.
Proof. intros [|c l' Hc _]; cbn [lstrip]; [reflexivity|]. now rewrite Hc. Qed.

Lemma strip_blank ws1 ws2 l :
  blank ws1 -> blank ws2 -> no_whitespace l -> strip (ws1 ++ l ++ ws2) = l.
Proof.
  intros H1 H2 Hl. unfold strip. rewrite lstrip_blank by exact H1.
  destruct l as [|c l]; cbn [app].
  - rewrite <- (app_nil_r ws2), lstrip_blank by exact H2. reflexivity.
  - inversion Hl as [|? ? Hc Hl']; subst. cbn [lstrip]. rewrite Hc.
    change (c :: l ++ ws2) with ((c :: l) ++ ws2).
    rewrite rev_app_distr, lstrip_blank by now apply List.Forall_rev.
    rewrite lstrip_no_whitespace by now apply List.Forall_rev.
    apply rev_involutive.
Qed.

Lemma int_digits_value ds : forall a,
  Forall (fun c => is_digit c = true) ds -> int_digits a ds = Some (value a ds).
Proof.
  induction ds as [|c ds IH]; intros a Hall; [reflexivity|].
  inversion Hall as [|? ? Hc Hds]; subst. cbn [int_digits]. rewrite Hc.
  now rewrite IH.
Qed.

Lemma int_unsigned_dec_nonneg n :
  (0 <= n)%Z -> int_unsigned (dec_nonneg n) = Some n.
Proof.
  intros Hn. destruct (dec_nonneg_spec n Hn) as (d & ds & -> & Hall & Hv & _).
  unfold int_unsigned. inversion Hall as [|? ? Hd _]; subst. rewrite Hd.
  now rewrite int_digits_value.
Qed.

Lemma filter_all {A} (f : A -> bool) l :
  Forall (fun x => f x = true) l -> List.filter f l = l.
Proof.
  induction 1 as [|x l Hx _ IH]; cbn [List.filter]; [reflexivity|].
  now rewrite Hx, IH.
Qed.

(** Digits after [a] stand for at least [a] shifted by their number. *)
Lemma value_lower ds : forall a,
  Forall (fun c => is_digit c = true) ds -> (0 <= a)%Z ->
  (a * 10 ^ Z.of_nat (length ds) <= value a ds)%Z.
Proof.
  induction ds as [|c ds IH]; intros a Hall Ha.
  - cbn. lia.
  - inversion Hall as [|? ? Hc Hds]; subst.
    apply is_digit_range in Hc.
    change (value a (c :: ds)) with (value (10 * a + digit_val c) ds).
    assert (Hd : (0 <= digit_val c)%Z) by (unfold digit_val; lia).
    specialize (IH (10 * a + digit_val c)%Z Hds ltac:(lia)).
    cbn [length]. rewrite Nat2Z.inj_succ, Z.pow_succ_r by lia.
    assert (Hp : (0 < 10 ^ Z.of_nat (length ds))%Z)
      by (apply Z.pow_pos_nonneg; lia).
    nia.
Qed.

(** A number below [10 ^ k] is written with at most [k] digits. *)
Lemma dec_nonneg_length n k :
  (0 <= n < 10 ^ k)%Z -> (1 <= k)%Z ->
  (Z.of_nat (length (dec_nonneg n)) <= k)%Z.
Proof.
  intros [Hn Hk] Hk1. destruct (Z.eq_dec n 0%Z) as [->|Hne].
  - change (1 <= k)%Z. exact Hk1.
  - destruct (dec_nonneg_spec n Hn) as (d & ds & -> & Hall & Hv & Hd).
    apply Forall_cons in Hall as [Hdig Hds].
    change (value 0 (d :: ds)) with (value (10 * 0 + digit_val d) ds) in Hv.
    pose proof (value_lower ds (10 * 0 + digit_val d)%Z Hds) as Hlow.
    specialize (Hd ltac:(lia)). specialize (Hlow ltac:(lia)).
    assert (Hp : (0 < 10 ^ Z.of_nat (length ds))%Z)
      by (apply Z.pow_pos_nonneg; lia).
    assert (Hlt : (10 ^ Z.of_nat (length ds) < 10 ^ k)%Z) by nia.
    apply Z.pow_lt_mono_r_iff in Hlt; [|lia|lia].
    cbn [length]. lia.
Qed.

Lemma int_limited_dec_nonneg n :
  (0 <= n < 10 ^ int_max_str_digits)%Z -> int_limited (dec_nonneg n) = Some n.
Proof.
  intros Hn. unfold int_limited.
  pose proof (dec_nonneg_length n int_max_str_digits Hn
                ltac:(unfold int_max_str_digits; lia))
    as Hlen.
  destruct (dec_nonneg_spec n (proj1 Hn)) as (d & ds & E & Hall & _).
  rewrite E in Hlen |- *. rewrite filter_all by exact Hall.
  replace (int_max_str_digits <? Z.of_nat (length (d :: ds)))%Z with false
    by (symmetry; apply Z.ltb_ge; exact Hlen).
  rewrite <- E. apply int_unsigned_dec_nonneg, Hn.
Qed.

(** A text of the ASCII range is what [int] parses. *)
Lemma to_ascii_plain l :
  Forall (fun c => (code c < 127)%Z) l -> to_ascii (utf8_decode l) = l.
Proof.
  induction 1 as [|c l Hc _ IH]; [reflexivity|].
  cbn [utf8_decode].
  replace (code c <? 192)%Z with true by (symmetry; apply Z.ltb_lt; lia).
  cbn [to_ascii].
  replace (code c <? 127)%Z with true by (symmetry; apply Z.ltb_lt; lia).
  now rewrite chr_code, IH.
Qed.

Lemma blank_plain ws : blank ws -> Forall (fun c => (code c < 127)%Z) ws.
Proof.
  intros Hb. eapply Forall_impl; [exact Hb|]. intros c Hc. cbn beta in Hc.
  unfold is_space in Hc. apply orb_true_iff in Hc as [Hc|Hc].
  - apply Z.eqb_eq in Hc. lia.
  - apply andb_true_iff in Hc as [_ Hc]. apply Z.leb_le in Hc. lia.
Qed.

Lemma repr_int_plain z : Forall (fun c => (code c < 127)%Z) (repr_int z).
Proof.
  assert (Hdig : forall n, (0 <= n)%Z ->
            Forall (fun c => (code c < 127)%Z) (dec_nonneg n)).
  { intros n Hn. destruct (dec_nonneg_spec n Hn) as (d & ds & -> & Hall & _).
    eapply Forall_impl; [exact Hall|].
    intros c Hc. apply is_digit_range in Hc. lia. }
  unfold repr_int. destruct (z <? 0)%Z eqn:E.
  - apply Z.ltb_lt in E. constructor; [reflexivity|]. apply Hdig. lia.
  - apply Z.ltb_ge in E. now apply Hdig.
Qed.

(** [int(str(z)) == z] for a [z] of at most 4300 digits, blanks around the
    digits allowed. *)
Lemma int_of_text_decimal z ws1 ws2 :
  (Z.abs z < 10 ^ int_max_str_digits)%Z ->
  blank ws1 -> blank ws2 -> int_of_text (ws1 ++ repr_int z ++ ws2) = Some z.
Proof.
  intros Hz H1 H2. unfold int_of_text.
  rewrite strip_blank by auto using repr_int_no_whitespace.
  unfold repr_int. destruct (z <? 0)%Z eqn:E.
  - apply Z.ltb_lt in E. rewrite int_limited_dec_nonneg by lia.
    cbn. f_equal. lia.
  - apply Z.ltb_ge in E.
    rewrite <- (int_limited_dec_nonneg z ltac:(lia)).
    destruct (dec_nonneg_spec z E) as (d & ds & -> & Hall & _).
    inversion Hall as [|? ? Hd _]; subst.
    destruct d as [[] [] [] [] [] [] [] []]; try reflexivity;
      vm_compute in Hd; discriminate.
Qed.

Lemma py_int_decimal z ws1 ws2 :
  (Z.abs z < 10 ^ int_max_str_digits)%Z ->
  blank ws1 -> blank ws2 ->
  py_int (PStr (str (ws1 ++ repr_int z ++ ws2))) = Ok z.
Proof.
  intros Hz H1 H2. unfold py_int, txt, str.
  rewrite list_ascii_of_string_of_list_ascii.
  rewrite to_ascii_plain
    by (repeat (apply Forall_app; split);
        auto using blank_plain, repr_int_plain).
  now rewrite int_of_text_decimal.
Qed.

End IntProps.

Section StreamEdges.
Context `{Collab}.

(** X17: the scan of the tags stops at the first entry it cannot pass:
    when the entries before [t] are well formed and none of them is the
    reserved tag, a reserved [t] makes the answer [True] whatever comes
    after it, even entries that are no dicts at all, and a [t] whose id
    cannot be read makes the scan raise that very error. *)
Theorem tag_scan_stops_early (pre post : list pyval) (t : pyval) :
  Forall other_tag pre ->
  (py_getitem t "id" = Ok (PStr DROPS_ENABLED_TAG) ->
   py_any tag_is_drops (pre ++ t :: post) = Ok true) /\
  (forall e, py_getitem t "id" = Raise e ->
   py_any tag_is_drops (pre ++ t :: post) = Raise e).
Proof.
  induction 1 as [|x pre (v & Hx & Hv) _ IH]; cbn [app py_any].
  - unfold tag_is_drops at 1 3. split.
    + intros ->. cbn. now rewrite String.eqb_refl.
    + intros e ->. reflexivity.
  - unfold tag_is_drops at 1 3. rewrite Hx. cbn. rewrite Hv. exact IH.
Qed.

(** X18: an id that arrives as the decimal text of [z], as the GQL layer
    sends it, blanks around it or not, [z] having no more digits than the
    interpreter converts, is stored as the integer [z]: in [broadcast_id]
    by [Stream.__init__], and in the channel's [id] by [get_stream], there
    even when the rest of the update fails. *)
Theorem decimal_ids_are_parsed (z : Z) (ws1 ws2 : text) :
  (Z.abs z < 10 ^ int_max_str_digits)%Z ->
  blank ws1 -> blank ws2 ->
  (forall data st now s,
     py_getitem data "stream" = Ok st ->
     py_getitem st "id" = Ok (PStr (str (ws1 ++ repr_int z ++ ws2))) ->
     Stream_init data now = Ok s ->
     broadcast_id s = PInt z) /\
  (forall ch now (o : oracle) resp sd,
     o (stream_query ch) = Ok resp ->
     py_truthy resp = true ->
     user_record resp = Ok sd ->
     py_getitem sd "id" = Ok (PStr (str (ws1 ++ repr_int z ++ ws2))) ->
     id (state_of (snd (run (get_stream ch) now [o]))) = z).
Proof.
  intros Hz H1 H2. split.
  - intros data st now s Hst Hid. unfold Stream_init. rewrite Hst. cbn [rbind].
    rewrite Hid. cbn [rbind]. rewrite py_int_decimal by assumption.
    cbn [rbind]. intros E.
    destruct (py_getitem st "viewersCount") as [vc|]; cbn in E; [|discriminate].
    destruct (py_getitem st "tags") as [tags|]; cbn in E; [|discriminate].
    destruct (py_iter tags) as [items|]; cbn in E; [|discriminate].
    destruct (py_any tag_is_drops items) as [de|]; cbn in E; [|discriminate].
    destruct (py_getitem data "broadcastSettings") as [bs|]; cbn in E; [|discriminate].
    destruct (py_getitem bs "game") as [g|]; cbn in E; [|discriminate].
    destruct (if py_is_not_None g then _ else _) as [gm|]; cbn in E; [|discriminate].
    destruct (py_getitem bs "title") as [t|]; cbn in E; [|discriminate].
    now injection E as <-.
  - intros ch now o resp sd Ho Ht Hu Hid. unfold user_record in Hu.
    unfold get_stream, stream_query in *. mstep. rewrite Ho. mstep.
    rewrite Ht. mstep. rewrite Hu. mstep. rewrite Hid. cbn [rbind].
    rewrite py_int_decimal by assumption. mstep.
    destruct (py_getitem sd "stream") as [live|e]; mstep; [|reflexivity].
    destruct (py_truthy live); mstep; [|reflexivity].
    destruct (Stream_init sd now) as [st|e]; reflexivity.
Qed.

End StreamEdges.

Section StreamEdgeExamples.
#[local] Existing Instance Sample.collab.

Lemma tag_scan_stops_early_witness :
  py_any tag_is_drops
    ([PDict [("id", PStr "6ea6bca4-4712-4ab9-a906-e3336a9d8039")]]
     ++ PDict [("id", PStr "c2542d6d-cd10-4532-919b-3d19f30a768b")] :: [PNone])
  = Ok true /\
  py_any tag_is_drops
    ([PDict [("id", PStr "6ea6bca4-4712-4ab9-a906-e3336a9d8039")]]
     ++ PDict [("name", PStr "English")]
        :: [PDict [("id", PStr "c2542d6d-cd10-4532-919b-3d19f30a768b")]])
  = Raise (KeyError "id").
Proof.
  assert (Hpre : Forall other_tag
            [PDict [("id", PStr "6ea6bca4-4712-4ab9-a906-e3336a9d8039")]]).
  { repeat constructor. eexists. split; reflexivity. }
  split.
  - exact (proj1 (tag_scan_stops_early _ [PNone]
                    (PDict [("id", PStr "c2542d6d-cd10-4532-919b-3d19f30a768b")])
                    Hpre) eq_refl).
  - exact (proj2 (tag_scan_stops_early _
                    [PDict [("id", PStr "c2542d6d-cd10-4532-919b-3d19f30a768b")]]
                    (PDict [("name", PStr "English")]) Hpre) _ eq_refl).
Defined.

Lemma decimal_ids_are_parsed_witness :
  (exists s, Stream_init Sample.live_user 7 = Ok s /\ broadcast_id s = PInt 456) /\
  id (state_of (snd (run (get_stream Sample.offline_channel) 7 [Sample.calm])))
  = 123%Z.
Proof.
  split.
  - eexists. split; [reflexivity|].
    refine (proj1 (decimal_ids_are_parsed 456%Z [] [] _ _ _)
              Sample.live_user _ 7%Z _ eq_refl eq_refl eq_refl);
      [vm_compute; reflexivity|constructor..].
  - refine (proj2 (decimal_ids_are_parsed 123%Z [] [] _ _ _)
              Sample.offline_channel 7%Z Sample.calm _ _ eq_refl eq_refl eq_refl
              eq_refl); [vm_compute; reflexivity|constructor..].
Defined.

End StreamEdgeExamples.

(** * What the endpoint discovery can ask for and hand out *)

Section RegexShapes.
Import Re.











End RegexShapes.

Section DiscoveryShapes.
Context `{Collab}.




End DiscoveryShapes.

Section DiscoveryShapeExamples.
#[local] Existing Instance Sample.collab.


End DiscoveryShapeExamples.

(** * The confirmation and the watch ping under any run *)

Section DelayProps.
Context `{Collab}.

(** X21: [_online_delay] sleeps before anything else, and it clears the
    pending mark exactly when it returns: when the sleep or the query
    raises, or a reply is still awaited, the mark is the one it started
    with. *)
Theorem online_delay_clears_on_return_only (ch : Channel) (now : Z)
    (os : list oracle) :
  hd_error (fst (run (_online_delay ch) now os)) = Some (Sleep ONLINE_DELAY) /\
  match snd (run (_online_delay ch) now os) with
  | Returned s _ => _pending_stream_up s = None
  | Raised s _ => _pending_stream_up s = _pending_stream_up ch
  | Blocked s _ => _pending_stream_up s = _pending_stream_up ch
  end.
Proof.
  unfold _online_delay. mstep.
  destruct os as [|o os]; [cbn; auto|].
  destruct (o (Sleep ONLINE_DELAY)) as [[]|e]; mstep; [|cbn; auto].
  rewrite run_cbind.
  assert (Hg : holds (fun s => _pending_stream_up s = _pending_stream_up ch)
                 (fun s' r => r = stream s') (get_stream ch))
    by (apply get_stream_holds; auto).
  destruct (holds_run _ _ _ now Hg os) as [Hp _].
  destruct (run (get_stream ch) now os) as [tr [s a|s e|s ev]]; cbn in *; auto.
Qed.

End DelayProps.
Section WatchFrame.
Context `{Collab}.

(** X22: however it ends, [_send_watch] changes no field of the channel
    but the cached endpoint, and a cached endpoint is never replaced, the
    channel then staying exactly as it was. *)
Theorem send_watch_frame (ch : Channel) (now : Z) (os : list oracle) :
  same_but_spade_url ch (state_of (snd (run (_send_watch ch) now os))) /\
  (forall u, _spade_url ch = Some u ->
     state_of (snd (run (_send_watch ch) now os)) = ch).
Proof.
  unfold _send_watch. mstep. unfold online.
  destruct (stream ch) as [st|] eqn:Hs; cbn [negb];
    [|cbn; repeat split; auto].
  destruct (_spade_url ch) as [u0|] eqn:Hu.
  - mstep. unfold _encode_payload. rewrite Hs. mstep.
    destruct os as [|o os]; [cbn; repeat split; auto|].
    destruct (o _); cbn; repeat split; auto.
  - mstep. rewrite !run_cbind.
    destruct (run (get_spade_url ch) now os) as [tr [s u|s e|s ev]] eqn:E;
      pose proof (get_spade_url_state ch now os _ _ E) as Hst;
      cbn in Hst; subst s;
      [|cbn; repeat split; auto; discriminate..].
    cbn [run].
    unfold _encode_payload. cbn [stream set_spade_url]. rewrite Hs. mstep.
    destruct (skipn (length (tr ++ [])) os) as [|o os'];
      [cbn; repeat split; auto; discriminate|].
    destruct (o _); cbn; repeat split; auto; discriminate.
Qed.

End WatchFrame.

(** * What the ping and the Stream hold *)

Section PayloadIdentity.
Context `{Collab}.
Import Json.

Lemma loads_dumps_watch_payload c b u :
  loads (dumps (watch_payload c b u)) = Some (watch_payload c b u).
Proof. unfold loads. rewrite dumps_watch_payload, lex_watch_text. reflexivity. Qed.

(** X23: the ping tells the watches apart: two online channels whose
    streams have integer broadcast ids get the same encoded payload only
    if channel id, broadcast id and user id are the same. *)
Theorem encode_payload_injective (c1 c2 : Channel) (s1 s2 : Stream) (b1 b2 : Z) :
  stream c1 = Some s1 -> broadcast_id s1 = PInt b1 ->
  stream c2 = Some s2 -> broadcast_id s2 = PInt b2 ->
  _encode_payload c1 = _encode_payload c2 ->
  id c1 = id c2 /\ b1 = b2 /\ _user_id (_twitch c1) = _user_id (_twitch c2).
Proof.
  intros Hs1 Hb1 Hs2 Hb2 E.
  assert (E' : str (Base64.b64encode
                      (dumps (watch_payload (id c1) b1 (_user_id (_twitch c1)))))
               = str (Base64.b64encode
                      (dumps (watch_payload (id c2) b2 (_user_id (_twitch c2)))))).
  { unfold _encode_payload in E. rewrite Hs1, Hs2, Hb1, Hb2 in E.
    exact (f_equal (fun r => match r with
                             | Ok (PDict [(_, PStr e)]) => e
                             | _ => EmptyString
                             end) E). }
  apply (f_equal txt) in E'. unfold txt, str in E'.
  rewrite !list_ascii_of_string_of_list_ascii in E'.
  apply (f_equal Base64.b64decode) in E'.
  rewrite !b64decode_b64encode in E'.
  apply (f_equal (fun o => match o with Some x => loads x | None => None end))
    in E'.
  cbv beta iota in E'. rewrite !loads_dumps_watch_payload in E'.
  unfold watch_payload in E'. now injection E'.
Qed.

End PayloadIdentity.

Section GameProps.
Context `{Collab}.

(** X24: a Stream built from a polled record has no game exactly when the
    record's [broadcastSettings] give [None] for it, and else the game
    [Game] makes of that entry; a Stream built from a directory entry
    always has the game [Game] makes of the entry's [game], so an entry
    from which [Game] makes nothing gives no Stream at all. *)
Theorem stream_game_presence (sh : shape) (data : pyval) (now : Z) (s : Stream) :
  construct sh data now = Ok s ->
  match sh with
  | Polled =>
      exists bs g,
        py_getitem data "broadcastSettings" = Ok bs /\
        py_getitem bs "game" = Ok g /\
        (game s = None <-> g = PNone) /\
        (forall x, game s = Some x -> Game_new g = Ok x)
  | Directory =>
      exists g x,
        py_getitem data "game" = Ok g /\ Game_new g = Ok x /\ game s = Some x
  end.
Proof.
  destruct sh; cbn [construct]; unfold Stream_init, Stream_from_directory;
    intros E.
  - destruct (py_getitem data "stream") as [st|]; cbn in E; [|discriminate].
    destruct (py_getitem st "id") as [sid|]; cbn in E; [|discriminate].
    destruct (py_int sid) as [bid|]; cbn in E; [|discriminate].
    destruct (py_getitem st "viewersCount") as [vc|]; cbn in E; [|discriminate].
    destruct (py_getitem st "tags") as [tags|]; cbn in E; [|discriminate].
    destruct (py_iter tags) as [items|]; cbn in E; [|discriminate].
    destruct (py_any tag_is_drops items) as [de|]; cbn in E; [|discriminate].
    destruct (py_getitem data "broadcastSettings") as [bs|]; cbn in E; [|discriminate].
    destruct (py_getitem bs "game") as [g|] eqn:Hg; cbn in E; [|discriminate].
    exists bs, g. split; [reflexivity|]. split; [exact Hg|]. clear Hg.
    destruct (py_is_not_None g) eqn:Hn.
    + destruct (Game_new g) as [x|] eqn:G; cbn in E; [|discriminate].
      destruct (py_getitem bs "title") as [t|]; cbn in E; [|discriminate].
      injection E as <-. cbn [game]. split.
      * split; [discriminate|]. intros ->. discriminate Hn.
      * intros y [= <-]. reflexivity.
    + assert (g = PNone) as -> by (destruct g; (reflexivity || discriminate Hn)).
      cbn in E.
      destruct (py_getitem bs "title") as [t|]; cbn in E; [|discriminate].
      injection E as <-. cbn [game]. split; [now split|discriminate].
  - destruct (py_getitem data "id") as [bid|]; cbn in E; [|discriminate].
    destruct (py_getitem data "viewersCount") as [vc|]; cbn in E; [|discriminate].
    destruct (py_getitem data "tags") as [tags|]; cbn in E; [|discriminate].
    destruct (py_iter tags) as [items|]; cbn in E; [|discriminate].
    destruct (py_any tag_is_drops items) as [de|]; cbn in E; [|discriminate].
    destruct (py_getitem data "game") as [g|]; cbn in E; [|discriminate].
    destruct (Game_new g) as [x|] eqn:G; cbn in E; [|discriminate].
    destruct (py_getitem data "title") as [t|]; cbn in E; [|discriminate].
    injection E as <-. exists g, x. auto.
Qed.

End GameProps.

Section HoldExamples.
#[local] Existing Instance Sample.collab.

Lemma encode_payload_injective_witness :
  id Sample.online_channel = id (set_spade_url (Some Sample.spade) Sample.online_channel) /\
  456%Z = 456%Z /\
  _user_id (_twitch Sample.online_channel)
  = _user_id (_twitch (set_spade_url (Some Sample.spade) Sample.online_channel)).
Proof.
  exact (encode_payload_injective Sample.online_channel
           (set_spade_url (Some Sample.spade) Sample.online_channel)
           Sample.a_stream Sample.a_stream 456 456
           eq_refl eq_refl eq_refl eq_refl eq_refl).
Defined.

Lemma stream_game_presence_witness :
  exists s, construct Polled Sample.live_user 7 = Ok s /\
  exists bs g,
    py_getitem Sample.live_user "broadcastSettings" = Ok bs /\
    py_getitem bs "game" = Ok g /\
    (game s = None <-> g = PNone) /\
    (forall x, game s = Some x -> Game_new g = Ok x).
Proof.
  eexists. split; [reflexivity|].
  apply (stream_game_presence Polled Sample.live_user 7). reflexivity.
Defined.

End HoldExamples.
